(** * chat-with-anything: the Gemini conversation client and the chat cache hook

    A shallow embedding of

    - [src/utils/gemini/client.ts]  (module [Gemini]), and
    - [src/hooks/useChats.ts]       (module [Chats]),

    together with the properties of the specification that concern them.

    JavaScript values are modelled as follows.  A [string] is a Rocq
    string, one 8-bit character per code unit (text outside Latin-1 is
    not modelled).  An optional parameter or a possibly [undefined] value
    is an [option].  Code that may throw runs in the monad [Eff S E],
    which threads a state [S] and ends either in [Returned a] or in
    [Threw e]; the state reached when the exception was raised is kept,
    as the effects performed before a JavaScript exception are.  An
    [await] is a plain sequencing point: each function runs alone. *)

From Stdlib Require Import Strings.String Strings.Ascii Strings.Byte ZArith Lia.
From stdpp Require Import base option list gmap strings.

Local Open Scope string_scope.
Local Open Scope list_scope.

(** ** JavaScript idioms shared by both files *)

Module Js.

(** How a computation ends: with a value, or with a thrown value. *)
Inductive Completion (E A : Type) : Type :=
| Returned (a : A)
| Threw (e : E).
Arguments Returned {E A} a.
Arguments Threw {E A} e.

(** State-and-exception monad. *)
Definition Eff (S E A : Type) : Type := S -> S * Completion E A.

Definition ret {S E A} (a : A) : Eff S E A := fun s => (s, Returned a).

Definition throw {S E A} (e : E) : Eff S E A := fun s => (s, Threw e).

Definition bind {S E A B} (m : Eff S E A) (k : A -> Eff S E B) : Eff S E B :=
  fun s =>
    match m s with
    | (s', Returned a) => k a s'
    | (s', Threw e) => (s', Threw e)
    end.

(** [try { m } catch (e) { h e }] *)
Definition tryCatch {S E A} (m : Eff S E A) (h : E -> Eff S E A) : Eff S E A :=
  fun s =>
    match m s with
    | (s', Returned a) => (s', Returned a)
    | (s', Threw e) => h e s'
    end.

Definition modify {S E} (f : S -> S) : Eff S E unit := fun s => (f s, Returned tt).

(** A loop whose variable takes the values of [l] in turn. *)
Fixpoint forEach {S E A} (l : list A) (f : A -> Eff S E unit) : Eff S E unit :=
  match l with
  | [] => ret tt
  | x :: l' => bind (f x) (fun _ => forEach l' f)
  end.

(** The value of a completion, if it has one. *)
Definition outcome_value {E A} (c : Completion E A) : option A :=
  match c with
  | Returned a => Some a
  | Threw _ => None
  end.

(** Truthiness of a string: every string but the empty one. *)
Definition truthy (s : string) : bool := negb (String.eqb s "").

(** Truthiness of an optional string: [undefined] and [""] are falsy. *)
Definition truthy_opt (o : option string) : bool :=
  match o with
  | Some s => truthy s
  | None => false
  end.

(** [s.includes(needle)] *)
Fixpoint includes (s needle : string) : bool :=
  String.prefix needle s
  || match s with
     | EmptyString => false
     | String _ s' => includes s' needle
     end.

(** White space of [String.prototype.trim] among the code units below
    256: TAB, LF, VT, FF, CR, SP and NBSP. *)
Definition isWhiteSpace (c : ascii) : bool :=
  let n := nat_of_ascii c in
  ((9 <=? n)%nat && (n <=? 13)%nat) || (n =? 32)%nat || (n =? 160)%nat.

Fixpoint trimStart (s : string) : string :=
  match s with
  | EmptyString => EmptyString
  | String c s' => if isWhiteSpace c then trimStart s' else s
  end.

Fixpoint trimEnd (s : string) : string :=
  match s with
  | EmptyString => EmptyString
  | String c s' =>
      match trimEnd s' with
      | EmptyString => if isWhiteSpace c then EmptyString else String c EmptyString
      | t => String c t
      end
  end.

(** [s.trim()] *)
Definition trim (s : string) : string := trimEnd (trimStart s).

End Js.

Export Js.

Declare Scope eff_scope.
Delimit Scope eff_scope with eff.
Notation "'let*' x ':=' m 'in' k" := (bind m (fun x => k))
  (at level 10, x name, m at level 99, k at level 200) : eff_scope.
Notation "m ';;' k" := (bind m (fun _ => k))
  (at level 100, k at level 200, right associativity) : eff_scope.

(** ** src/utils/gemini/client.ts *)

Module Gemini.

Local Open Scope eff_scope.

(** [ChatMessage.role] *)
Inductive Role : Type := user | model.

Record ChatMessage : Type := { role : Role; content : string }.

Record ImageData : Type := { buffer : list byte; mimeType : string }.

(** [buffer.toString("base64")]: RFC 4648 alphabet, padded with [=]. *)
Definition base64Alphabet : string :=
  "ABCDEFGHIJKLMNOPQRSTUVWXYZabcdefghijklmnopqrstuvwxyz0123456789+/".

Definition sextet (n : N) : ascii :=
  match String.get (N.to_nat n) base64Alphabet with
  | Some c => c
  | None => "="%char
  end.

Fixpoint toBase64 (bs : list byte) : string :=
  match bs with
  | [] => ""
  | [a] =>
      let x := Byte.to_N a in
      String (sextet (x / 4)) (String (sextet ((x mod 4) * 16)) "==")
  | [a; b] =>
      let x := Byte.to_N a in
      let y := Byte.to_N b in
      String (sextet (x / 4))
        (String (sextet ((x mod 4) * 16 + y / 16))
           (String (sextet ((y mod 16) * 4)) "="))
  | a :: b :: c :: rest =>
      let x := Byte.to_N a in
      let y := Byte.to_N b in
      let z := Byte.to_N c in
      String (sextet (x / 4))
        (String (sextet ((x mod 4) * 16 + y / 16))
           (String (sextet ((y mod 16) * 4 + z / 64))
              (String (sextet (z mod 64)) (toBase64 rest))))
  end%N.

(** One element of the array passed to [chat.sendMessage]. *)
Inductive Part : Type :=
| Text (text : string)
| InlineData (data : string) (mime : string).

Definition Request : Type := list Part.

(** A thrown value, as far as the [catch] clause looks at it: an
    [Error] instance with its [message]; or any other value, with what
    [String(error)] does on it.  The conversion gives a string, or it
    throws in its turn: an object that has neither [toString] nor
    [valueOf], such as [Object.create(null)], makes it raise a
    [TypeError], and an object whose [toString] throws makes it raise
    what that method threw. *)
Inductive Thrown : Type :=
| ErrorObject (message : string)
| OtherValue (shown : string)
| Unprintable (raised : Thrown).

(** [result.response]: the only member used is [text()], which the SDK
    lets throw (a blocked candidate, for instance). *)
Record Response : Type := { text : Completion Thrown string }.

(** What lies outside the file: the environment variable, the remote
    model behind the SDK's chat session, and the two prompt builders
    imported from [../youtube-utils] and [../query-utils].

    [sendMessage history request] is the outcome of
    [await chat.sendMessage(request)] on a session that was sent
    [history] before; any behaviour of the model within one
    conversation is such a function. *)
Record Env : Type := {
  API_KEY : string;
  sendMessage : list Request -> Request -> Completion Thrown Response;
  createYoutubeSystemPrompt : string -> string;
  createRagSystemPrompt : string -> string
}.

(** The statement of [sendMessageToGemini] that issues a call; a label
    for the transcript only, the model never sees it. *)
Inductive Site : Type :=
| SystemTurn
| ReplayTurn (i : nat)
| FinalTurn.

Record Call : Type := { site : Site; parts : Request }.

(** The state threaded through [sendMessageToGemini]: the calls issued
    so far on the session made by [createChatSession], oldest first.
    The session starts with [history: []] and is the only way the
    function reaches the model. *)
Definition Session : Type := list Call.

Definition Async (A : Type) : Type := Eff Session Thrown A.

Definition createChatSession : Session := [].

Section Client.

Variable env : Env.

(** [export const isGeminiConfigured = () => !!API_KEY;] *)
Definition isGeminiConfigured : bool := truthy (API_KEY env).

(** [await chat.sendMessage(request)], issued at [at_site]. *)
Definition chat_sendMessage (at_site : Site) (request : Request) : Async Response :=
  fun session =>
    (session ++ [{| site := at_site; parts := request |}],
     sendMessage env (map parts session) request).

(** [response.text()] *)
Definition response_text (r : Response) : Async string :=
  fun session => (session, text r).

(** The [TypeError] of reading [.content] of [undefined] (V8's text). *)
Definition undefinedContent : Thrown :=
  ErrorObject "Cannot read properties of undefined (reading 'content')".

(** [m.content] where [m] is an array element that may be [undefined]. *)
Definition content_of (m : option ChatMessage) : Async string :=
  match m with
  | Some msg => ret (content msg)
  | None => throw undefinedContent
  end.

(** [messages[messages.length - 1]]: index [-1] of the empty array is
    [undefined]. *)
Definition lastMessage (messages : list ChatMessage) : option ChatMessage :=
  match length messages with
  | O => None
  | S n => messages !! n
  end.

Definition systemPromptPreamble : string :=
  "I need you to act as a document assistant with the following instructions: ".

(** Lines 89-105: the choice of [systemPrompt]. *)
Definition chooseSystemPrompt (messages : list ChatMessage) (fileContent : string)
  : Async string :=
  if String.eqb fileContent "IMAGE_FILE" then ret ""
  else if String.eqb fileContent "YOUTUBE_TRANSCRIPT" then
    ret (createYoutubeSystemPrompt env fileContent)
  else
    let* c := content_of (lastMessage messages) in
    if includes c "YouTube" then ret (createYoutubeSystemPrompt env fileContent)
    else ret (createRagSystemPrompt env fileContent).

(** Lines 85-122. *)
Definition sendSystemPrompt (messages : list ChatMessage) (fileContent : option string)
  : Async unit :=
  match fileContent with
  | Some fc =>
      if truthy fc then
        let* systemPrompt := chooseSystemPrompt messages fc in
        if truthy systemPrompt then
          let* systemResult :=
            chat_sendMessage SystemTurn [Text (systemPromptPreamble +:+ systemPrompt)] in
          let* _ := response_text systemResult in
          ret tt
        else ret tt
      else ret tt
  | None => ret tt
  end.

(** Lines 127-130: the body of the loop, at index [i]. *)
Definition replayBody (messages : list ChatMessage) (i : nat) : Async unit :=
  let msg := messages !! i in
  let* c := content_of msg in
  let* result := chat_sendMessage (ReplayTurn i) [Text c] in
  let* _ := response_text result in
  ret tt.

(** Lines 125-132: [for (let i = 0; i < messages.length - 1; i++)]. *)
Definition replayPrevious (messages : list ChatMessage) : Async unit :=
  if (1 <? length messages)%nat then
    forEach (seq 0 (length messages - 1)) (replayBody messages)
  else ret tt.

(** Lines 135-165. *)
Definition sendLast (messages : list ChatMessage) (imageData : option ImageData)
  : Async string :=
  let lastUserMessage := lastMessage messages in
  let* c := content_of lastUserMessage in
  match imageData with
  | Some img =>
      let* result :=
        chat_sendMessage FinalTurn
          [Text c; InlineData (toBase64 (buffer img)) (mimeType img)] in
      response_text result
  | None =>
      let* result := chat_sendMessage FinalTurn [Text c] in
      response_text result
  end.

(** The [try] block, lines 72-165. *)
Definition tryBlock (messages : list ChatMessage) (fileContent : option string)
    (imageData : option ImageData) : Async string :=
  (if negb isGeminiConfigured
   then throw (ErrorObject "Gemini API key is not configured")
   else ret tt);;
  sendSystemPrompt messages fileContent;;
  replayPrevious messages;;
  sendLast messages imageData.

(** [error instanceof Error ? error.message : String(error)], the
    expression inside the template of line 168: a string, or the
    exception of the conversion. *)
Definition errorText (e : Thrown) : Async string :=
  match e with
  | ErrorObject message => ret message
  | OtherValue shown => ret shown
  | Unprintable raised => throw raised
  end.

Definition apology : string :=
  "I'm sorry, I encountered an error while processing your request. ".

(** The [catch] clause, lines 166-169.  Nothing encloses it: what the
    template raises leaves the function. *)
Definition catchClause (e : Thrown) : Async string :=
  let* detail := errorText e in
  ret (apology +:+ detail).

Definition sendMessageToGemini (messages : list ChatMessage)
    (fileContent : option string) (imageData : option ImageData) : Async string :=
  tryCatch (tryBlock messages fileContent imageData) catchClause.

(** One invocation, from the fresh session: the calls it issued and
    how it ended. *)
Definition invoke (messages : list ChatMessage) (fileContent : option string)
    (imageData : option ImageData) : Session * Completion Thrown string :=
  sendMessageToGemini messages fileContent imageData createChatSession.

End Client.

(** *** The conversation the client means to hold *)

Section Plan.

Variable env : Env.

(** [(await chat.sendMessage(request)).response.text()] on a session
    that was sent [history]. *)
Definition answer (history : list Request) (request : Request)
  : Completion Thrown string :=
  match sendMessage env history request with
  | Returned r => text r
  | Threw e => Threw e
  end.

(** The model answers each of [requests], sent one after the other on
    a session that was sent [history], with a readable text. *)
Fixpoint answered (history requests : list Request) : bool :=
  match requests with
  | [] => true
  | r :: rest =>
      match answer history r with
      | Returned _ => answered (history ++ [r]) rest
      | Threw _ => false
      end
  end.

(** The system prompt line 89-105 settle on; [""] stands for none. *)
Definition systemPromptFor (messages : list ChatMessage) (fc : string) : string :=
  if String.eqb fc "IMAGE_FILE" then ""
  else if String.eqb fc "YOUTUBE_TRANSCRIPT" then createYoutubeSystemPrompt env fc
  else
    match lastMessage messages with
    | Some m =>
        if includes (content m) "YouTube" then createYoutubeSystemPrompt env fc
        else createRagSystemPrompt env fc
    | None => ""
    end.

(** Whether lines 95-98 get to read the content of the last message. *)
Definition readsLastMessage (fileContent : option string) : bool :=
  match fileContent with
  | Some fc =>
      truthy fc && negb (String.eqb fc "IMAGE_FILE")
      && negb (String.eqb fc "YOUTUBE_TRANSCRIPT")
  | None => false
  end.

Definition systemTurns (messages : list ChatMessage) (fileContent : option string)
  : list Call :=
  match fileContent with
  | Some fc =>
      if truthy fc && truthy (systemPromptFor messages fc)
      then [ {| site := SystemTurn;
                parts := [Text (systemPromptPreamble +:+ systemPromptFor messages fc)] |} ]
      else []
  | None => []
  end.

(** One turn per earlier message, whatever its role, labelled with its
    index. *)
Definition replayTurn (i : nat) (m : ChatMessage) : Call :=
  {| site := ReplayTurn i; parts := [Text (content m)] |}.

Definition replayTurns (prior : list ChatMessage) : list Call :=
  imap replayTurn prior.

Definition finalParts (m : ChatMessage) (imageData : option ImageData) : Request :=
  match imageData with
  | Some img => [Text (content m); InlineData (toBase64 (buffer img)) (mimeType img)]
  | None => [Text (content m)]
  end.

Definition finalTurn (m : ChatMessage) (imageData : option ImageData) : Call :=
  {| site := FinalTurn; parts := finalParts m imageData |}.

(** Every call of an invocation on the history [prior ++ [m]], if none
    fails. *)
Definition plan (prior : list ChatMessage) (m : ChatMessage)
    (fileContent : option string) (imageData : option ImageData) : list Call :=
  systemTurns (prior ++ [m]) fileContent ++ replayTurns prior ++ [finalTurn m imageData].

(** Send each call and read its text, stopping at the first exception. *)
Fixpoint play (calls : list Call) : Async unit :=
  match calls with
  | [] => ret tt
  | c :: rest =>
      let* r := chat_sendMessage env (site c) (parts c) in
      let* _ := response_text r in
      play rest
  end.

End Plan.

Definition isReplay (c : Call) : bool :=
  match site c with
  | ReplayTurn _ => true
  | _ => false
  end.

(** The reading of a history [a, _, c] under which the user's earlier
    turn alone is replayed: one replay call, one final call. *)
Definition oneReplayOneFinal (a c : string)
    (outcome : Session * Completion Thrown string) : Prop :=
  exists i reply,
    outcome = ([ {| site := ReplayTurn i; parts := [Text a] |};
                 {| site := FinalTurn; parts := [Text c] |} ],
               Returned reply).

(** *** A concrete environment to run the client on *)

(** A model that answers every request with the number of turns it has
    been sent so far and the first text of the request. *)
Definition firstText (r : Request) : string :=
  match r with
  | Text t :: _ => t
  | _ => ""
  end.

Definition digit (n : nat) : string :=
  String (ascii_of_nat (48 + n mod 10)) "".

Definition echoModel (history : list Request) (r : Request) : Completion Thrown Response :=
  Returned {| text := Returned ("#" +:+ digit (length history) +:+ ":" +:+ firstText r) |}.

Definition echoEnv : Env := {|
  API_KEY := "test-key";
  sendMessage := echoModel;
  createYoutubeSystemPrompt := fun fc => "YT:" +:+ fc;
  createRagSystemPrompt := fun fc => "RAG:" +:+ fc
|}.

(** The same model behind an unset [GEMINI_API_KEY]. *)
Definition unconfiguredEnv : Env := {|
  API_KEY := "";
  sendMessage := echoModel;
  createYoutubeSystemPrompt := fun fc => "YT:" +:+ fc;
  createRagSystemPrompt := fun fc => "RAG:" +:+ fc
|}.

(** A model whose second call fails, and one whose first reply has no
    readable text. *)
Definition flakyEnv : Env := {|
  API_KEY := "test-key";
  sendMessage := fun history r =>
    if (length history =? 1)%nat then Threw (ErrorObject "503 Service Unavailable")
    else echoModel history r;
  createYoutubeSystemPrompt := fun fc => "YT:" +:+ fc;
  createRagSystemPrompt := fun fc => "RAG:" +:+ fc
|}.

Definition blockedEnv : Env := {|
  API_KEY := "test-key";
  sendMessage := fun history r =>
    if (length history =? 0)%nat
    then Returned {| text := Threw (OtherValue "blocked: SAFETY") |}
    else echoModel history r;
  createYoutubeSystemPrompt := fun fc => "YT:" +:+ fc;
  createRagSystemPrompt := fun fc => "RAG:" +:+ fc
|}.

Definition isInlineData (p : Part) : bool :=
  match p with
  | InlineData _ _ => true
  | Text _ => false
  end.

Definition carriesImage (c : Call) : bool := existsb isInlineData (parts c).

Definition pixel : ImageData :=
  {| buffer := [x89; x50; x4e; x47]%byte; mimeType := "image/png" |}.




(** The contents of [historyABC] below, all as user turns. *)
Definition historyABC_users : list ChatMessage :=
  [ {| role := user; content := "A" |};
    {| role := user; content := "B" |};
    {| role := user; content := "C" |} ].

Definition historyABC : list ChatMessage :=
  [ {| role := user; content := "A" |};
    {| role := model; content := "B" |};
    {| role := user; content := "C" |} ].

End Gemini.

(** ** src/hooks/useChats.ts *)

Module Chats.

Local Open Scope eff_scope.

(** *** Rows, errors and the hosted store

    The store is a hosted service reached through the Supabase client.
    It is modelled by its two tables and by the replies PostgREST gives
    to the requests the hook makes; row-level policies are not
    modelled. *)

(** Modelled from the spec: the row type [TypeChat] of
    [@/types/TypeSupabase], which is not among the sources.  The spec
    lists an identifier, the owning user, the creation time, the
    associated file and the mutable fields, of which the title is
    named. *)
Record TypeChat : Type := {
  id : string;
  user_id : string;
  created_at : string;
  file_id : string;
  title : string
}.

(** The two columns [select("id, user_id")] reads from [files]. *)
Module TypeFile.
Record t : Type := { id : string; user_id : string }.
End TypeFile.

(** [Partial<TypeChat>]: every column optional. *)
Record ChatPatch : Type := {
  set_id : option string;
  set_user_id : option string;
  set_created_at : option string;
  set_file_id : option string;
  set_title : option string
}.

(** The [error] member of a store response: its code and message. *)
Inductive PostgrestError : Type := PgError (code message : string).

(** Thrown values: an error made by [createChatError], any other
    [Error] instance with its message, or a value that is no [Error]. *)
Inductive Thrown : Type :=
| ChatError (message kind : string) (status : Z)
| OtherError (message : string)
| NotAnError.

(** Modelled from the spec: [createChatError] of [@/utils/chat-utils],
    which is not among the sources.  The error it makes carries the
    message, the error kind (one of the kinds the spec lists) and the
    status it was called with. *)
Definition createChatError (message kind : string) (status : Z) : Thrown :=
  ChatError message kind status.

(** Modelled from the spec: [isChatError] of [@/utils/chat-utils], which
    is not among the sources; it recognises the errors made by
    [createChatError]. *)
Definition isChatError (e : Thrown) : bool :=
  match e with
  | ChatError _ _ _ => true
  | _ => false
  end.

(** The hosted tables, and [fault]: the error every request is answered
    with while the store or the connection is down. *)
Record Store : Type := {
  files : list TypeFile.t;
  chats : list TypeChat;
  fault : option PostgrestError
}.

(** [{ data, error }] *)
Record Reply (A : Type) : Type := { data : option A; error : option PostgrestError }.
Arguments data {A} _.
Arguments error {A} _.

(** The error of [single()] and [maybeSingle()] when the number of rows
    is not the one asked for. *)
Definition PGRST116 : PostgrestError :=
  PgError "PGRST116" "JSON object requested, multiple (or no) rows returned".

(** [from("files").select("id, user_id").eq("id", fileId).maybeSingle()]:
    no row is [data: null] without error, several rows are an error. *)
Definition files_maybeSingle (fileId : string) (st : Store) : Reply TypeFile.t :=
  match fault st with
  | Some e => {| data := None; error := Some e |}
  | None =>
      match List.filter (fun f => String.eqb (TypeFile.id f) fileId) (files st) with
      | [] => {| data := None; error := None |}
      | [f] => {| data := Some f; error := None |}
      | _ => {| data := None; error := Some PGRST116 |}
      end
  end.

(** The filter [.eq("id", chatId).eq("user_id", userId)]; [userId] is
    the hook's value, [undefined] when nobody is signed in. *)
Definition ownedBy (chatId : string) (userId : option string) (c : TypeChat) : bool :=
  String.eqb (id c) chatId
  && match userId with
     | Some u => String.eqb (user_id c) u
     | None => false
     end.

(** [from("chats").delete().eq(..).eq(..)]: the rows the filter selects
    are removed; selecting none is not an error. *)
Definition chats_delete (chatId : string) (userId : option string) (st : Store)
  : Store * Reply unit :=
  match fault st with
  | Some e => (st, {| data := None; error := Some e |})
  | None =>
      ({| files := files st;
          chats := List.filter (fun c => negb (ownedBy chatId userId c)) (chats st);
          fault := None |},
       {| data := None; error := None |})
  end.

Definition applyPatch (p : ChatPatch) (c : TypeChat) : TypeChat :=
  {| id := default (id c) (set_id p);
     user_id := default (user_id c) (set_user_id p);
     created_at := default (created_at c) (set_created_at p);
     file_id := default (file_id c) (set_file_id p);
     title := default (title c) (set_title p) |}.

(** [from("chats").update(chatData).eq(..).eq(..).select().single()]:
    [single()] wants exactly one row selected, which is updated and
    returned; otherwise the request is an error and changes nothing. *)
Definition chats_update (chatData : ChatPatch) (chatId : string)
    (userId : option string) (st : Store) : Store * Reply TypeChat :=
  match fault st with
  | Some e => (st, {| data := None; error := Some e |})
  | None =>
      match List.filter (ownedBy chatId userId) (chats st) with
      | [c] =>
          ({| files := files st;
              chats := map (fun c => if ownedBy chatId userId c
                                     then applyPatch chatData c else c) (chats st);
              fault := None |},
           {| data := Some (applyPatch chatData c); error := None |})
      | _ => (st, {| data := None; error := Some PGRST116 |})
      end
  end.

(** *** The React Query cache *)

(** The hook stores data under two shapes of key only: the list under
    [CHATS_QUERY_KEY = ["chats"]] and one chat under
    [[...CHATS_QUERY_KEY, id]].  [chatList] is the data of the first key
    ([None]: no data, the updater's [undefined]), [chatById] maps [id]
    to the data of the second. *)
Record QueryCache : Type := {
  chatList : option (list TypeChat);
  chatById : gmap string TypeChat
}.

(** [queryClient.setQueryData(CHATS_QUERY_KEY, updater)] inside its
    [try]: every updater of the hook returns an array, which is stored. *)
Definition updateChatListCache (updater : option (list TypeChat) -> list TypeChat)
    (q : QueryCache) : QueryCache :=
  {| chatList := Some (updater (chatList q)); chatById := chatById q |}.

(** [(oldData) => [newChat, ...(oldData || [])]] *)
Definition addChatToCache (newChat : TypeChat) (q : QueryCache) : QueryCache :=
  updateChatListCache (fun oldData => newChat :: default [] oldData) q.

(** Lines 114-128: [setQueryData([...CHATS_QUERY_KEY, updatedChat.id],
    updatedChat)], then the list is mapped, or made if there is none. *)
Definition updateChatInCache (updatedChat : TypeChat) (q : QueryCache) : QueryCache :=
  let q1 := {| chatList := chatList q;
               chatById := <[id updatedChat := updatedChat]> (chatById q) |} in
  updateChatListCache
    (fun oldData =>
       match oldData with
       | None => [updatedChat]
       | Some l =>
           map (fun chat => if String.eqb (id chat) (id updatedChat)
                            then updatedChat else chat) l
       end)
    q1.

(** Lines 130-138:
    [removeQueries({ queryKey: [...CHATS_QUERY_KEY, chatId] })], then
    [oldData?.filter((chat) => chat.id !== chatId) || []] on the list
    (an array is truthy, also the empty one). *)
Definition removeChatFromCache (chatId : string) (q : QueryCache) : QueryCache :=
  let q1 := {| chatList := chatList q; chatById := delete chatId (chatById q) |} in
  updateChatListCache
    (fun oldData =>
       match oldData with
       | None => []
       | Some l => List.filter (fun chat => negb (String.eqb (id chat) chatId)) l
       end)
    q1.

(** *** The hook *)

(** Everything the hook's callbacks act on. *)
Record World : Type := {
  store : Store;
  queryCache : QueryCache;
  pushed : list string;
  created : list (string * option string)
}.

Definition Hook (A : Type) : Type := Eff World Thrown A.

(** What one render of [useChats] closes over: [userId] of [useUser]
    and whether [supabaseBrowserClient()] gave a client. *)
Record Context : Type := {
  userId : option string;
  supabase : bool
}.

(** Functions the file imports and the sources do not contain:
    [validateChatId], [validateData] and [getErrorFromSupabaseError] of
    [@/utils/chat-utils], and the server action [createChat] of
    [@/utils/gemini/actions], which acts on the store. *)
Record Imports : Type := {
  validateChatId : string -> bool;
  validateData : ChatPatch -> string -> Completion Thrown unit;
  getErrorFromSupabaseError : PostgrestError -> string -> Thrown;
  createChatWithGemini :
    string -> option string -> Store -> Store * Completion Thrown (option TypeChat)
}.

Section UseChats.

Variable imports : Imports.
Variable ctx : Context.

Definition setCache (f : QueryCache -> QueryCache) : Hook unit :=
  modify (fun w =>
    {| store := store w; queryCache := f (queryCache w);
       pushed := pushed w; created := created w |}).

(** [router.push(path)] *)
Definition router_push (path : string) : Hook unit :=
  modify (fun w =>
    {| store := store w; queryCache := queryCache w;
       pushed := pushed w ++ [path]; created := created w |}).

(** A request to the store: the new tables and the reply. *)
Definition request {A} (q : Store -> Store * Reply A) : Hook (Reply A) :=
  fun w =>
    let '(st, r) := q (store w) in
    ({| store := st; queryCache := queryCache w;
        pushed := pushed w; created := created w |},
     Returned r).

(** [await createChatWithGemini(fileId, userId)] *)
Definition callCreateChat (fileId : string) : Hook (option TypeChat) :=
  fun w =>
    let '(st, r) := createChatWithGemini imports fileId (userId ctx) (store w) in
    ({| store := st; queryCache := queryCache w;
        pushed := pushed w; created := created w ++ [(fileId, userId ctx)] |},
     r).

Definition throwIf (b : bool) (e : Thrown) : Hook unit :=
  if b then throw e else ret tt.

(** Lines 36-79. *)
Definition handleError (e : Thrown) (context : string) : Hook Thrown :=
  if isChatError e then ret e
  else
    match e with
    | OtherError message =>
        if includes message "JWT expired"
           || includes message "refresh_token_not_found"
           || includes message "Authentication required"
        then
          router_push "/login";;
          ret (createChatError "Authentication expired. Please log in again."
                 "AUTH_EXPIRED" 401)
        else if includes message "Failed to fetch" || includes message "NetworkError"
        then ret (createChatError "Network error. Please check your connection."
                    "NETWORK_ERROR" 0)
        else ret e
    | _ => ret (createChatError ("Unknown error in " +:+ context) "UNKNOWN_ERROR" 500)
    end.

(** Lines 82-93. *)
Definition validateUserAuth : Hook unit :=
  throwIf (negb (truthy_opt (userId ctx)))
    (createChatError "User not authenticated" "NO_USER_ID" 401);;
  throwIf (negb (supabase ctx))
    (createChatError "Database connection not available" "NO_SUPABASE" 500).

(** [useMutation({ mutationFn, onSuccess, onError })], run with
    [mutateAsync]: the callback of the outcome runs, then the outcome
    is the mutation's. *)
Definition useMutation {V A} (mutationFn : V -> Hook A)
    (onSuccess : A -> Hook unit) (onError : Thrown -> Hook unit) (v : V) : Hook A :=
  tryCatch
    (let* a := mutationFn v in onSuccess a;; ret a)
    (fun e => onError e;; throw e).

(** Lines 214-251. *)
Definition startChatWithFile_mutationFn (fileId : string) : Hook TypeChat :=
  validateUserAuth;;
  throwIf (negb (truthy (trim fileId)))
    (createChatError "Valid file ID is required" "INVALID_FILE_ID" 400);;
  let* r := request (fun st => (st, files_maybeSingle fileId st)) in
  match error r with
  | Some fileCheckError =>
      throw (getErrorFromSupabaseError imports fileCheckError "verify file")
  | None =>
      match data r with
      | None => throw (createChatError "File not found" "FILE_NOT_FOUND" 404)
      | Some fileCheck =>
          if negb (bool_decide (Some (TypeFile.user_id fileCheck) = userId ctx))
          then throw (createChatError "File access denied" "FILE_ACCESS_DENIED" 403)
          else
            let* chat := callCreateChat fileId in
            match chat with
            | Some c =>
                if truthy (id c) then ret c
                else throw (createChatError "Failed to create chat - invalid response"
                              "INVALID_CHAT_RESPONSE" 500)
            | None =>
                throw (createChatError "Failed to create chat - invalid response"
                         "INVALID_CHAT_RESPONSE" 500)
            end
      end
  end.

Definition startChatWithFileMutation : string -> Hook TypeChat :=
  useMutation startChatWithFile_mutationFn
    (fun chat => setCache (addChatToCache chat))
    (fun e => let* _ := handleError e "startChatWithFile" in ret tt).

(** Lines 293-325. *)
Definition updateChat_mutationFn (vars : string * ChatPatch) : Hook TypeChat :=
  let '(chatId, chatData) := vars in
  validateUserAuth;;
  throwIf (negb (validateChatId imports chatId))
    (createChatError "Valid chat ID is required" "INVALID_CHAT_ID" 400);;
  (fun w => (w, validateData imports chatData "chat data"));;
  let* r := request (chats_update chatData chatId (userId ctx)) in
  match error r with
  | Some e => throw (getErrorFromSupabaseError imports e "update chat")
  | None =>
      match data r with
      | None => throw (createChatError "Chat not found or access denied"
                         "CHAT_NOT_FOUND" 404)
      | Some c => ret c
      end
  end.

Definition updateChatMutation : string * ChatPatch -> Hook TypeChat :=
  useMutation updateChat_mutationFn
    (fun chat => setCache (updateChatInCache chat))
    (fun e => let* _ := handleError e "updateChat" in ret tt).

(** Lines 335-353. *)
Definition deleteChat_mutationFn (chatId : string) : Hook string :=
  validateUserAuth;;
  throwIf (negb (validateChatId imports chatId))
    (createChatError "Valid chat ID is required" "INVALID_CHAT_ID" 400);;
  let* r := request (chats_delete chatId (userId ctx)) in
  match error r with
  | Some e => throw (getErrorFromSupabaseError imports e "delete chat")
  | None => ret chatId
  end.

Definition deleteChatMutation : string -> Hook string :=
  useMutation deleteChat_mutationFn
    (fun chatId => setCache (removeChatFromCache chatId))
    (fun e => let* _ := handleError e "deleteChat" in ret tt).

End UseChats.

(** *** A concrete world to run the hook in *)

Definition demoImports : Imports := {|
  validateChatId := fun chatId => truthy (trim chatId);
  validateData := fun _ _ => Returned tt;
  getErrorFromSupabaseError := fun e context =>
    match e with
    | PgError _ message => OtherError (context +:+ ": " +:+ message)
    end;
  createChatWithGemini := fun fileId userId st =>
    let c := {| id := "chat-" +:+ fileId; user_id := default "" userId;
                created_at := "2025-01-03"; file_id := fileId; title := "New chat" |} in
    ({| files := files st; chats := c :: chats st; fault := fault st |},
     Returned (Some c))
|}.

Definition alice : Context := {| userId := Some "alice"; supabase := true |}.

Definition chat1 : TypeChat :=
  {| id := "c1"; user_id := "alice"; created_at := "2025-01-01";
     file_id := "f-alice"; title := "Report" |}.

Definition chat2 : TypeChat :=
  {| id := "c2"; user_id := "alice"; created_at := "2025-01-02";
     file_id := "f-alice"; title := "Slides" |}.

Definition chat3 : TypeChat :=
  {| id := "c3"; user_id := "bob"; created_at := "2025-01-02";
     file_id := "f-bob"; title := "Notes" |}.

Definition demoStore : Store := {|
  files := [ {| TypeFile.id := "f-alice"; TypeFile.user_id := "alice" |};
             {| TypeFile.id := "f-bob"; TypeFile.user_id := "bob" |} ];
  chats := [chat1; chat2; chat3];
  fault := None
|}.

Definition demoCache : QueryCache := {|
  chatList := Some [chat2; chat1];
  chatById := {[ "c1" := chat1; "c2" := chat2 ]}
|}.

Definition demoWorld : World := {|
  store := demoStore;
  queryCache := demoCache;
  pushed := [];
  created := []
|}.

Definition rename (t : string) : ChatPatch := {|
  set_id := None; set_user_id := None; set_created_at := None;
  set_file_id := None; set_title := Some t
|}.

(** What a run leaves behind, in short: the ids in the [chats] table,
    the ids in the list cache, the ids with a cache entry, the redirects
    and the calls of the server action. *)
Definition summary (w : World)
  : list string * option (list string) * list string * list string
    * list (string * option string) :=
  (map id (chats (store w)), map id <$> chatList (queryCache w),
   map fst (map_to_list (chatById (queryCache w))), pushed w, created w).

(** *** The rest of the hook *)

Definition errorCode (e : PostgrestError) : string :=
  match e with
  | PgError code _ => code
  end.

(** [from("chats").select("*, files(*)").eq("id", chatId)
    .eq("user_id", userId).single()]; the embedded [files] rows are not
    modelled. *)
Definition chats_single (chatId : string) (userId : option string) (st : Store)
  : Reply TypeChat :=
  match fault st with
  | Some e => {| data := None; error := Some e |}
  | None =>
      match List.filter (ownedBy chatId userId) (chats st) with
      | [c] => {| data := Some c; error := None |}
      | _ => {| data := None; error := Some PGRST116 |}
      end
  end.

(** The hook's [deletingId] state beside the world. *)
Record Ui : Type := {
  world : World;
  deletingId : option string
}.

Definition Handler (A : Type) : Type := Eff Ui Thrown A.

(** [try { m } finally { f }] *)
Definition tryFinally {S E A} (m : Eff S E A) (f : Eff S E unit) : Eff S E A :=
  fun s =>
    match m s with
    | (s1, outcome) =>
        match f s1 with
        | (s2, Returned _) => (s2, outcome)
        | (s2, Threw e) => (s2, Threw e)
        end
    end.

Section RestOfUseChats.

Variable imports : Imports.
Variable ctx : Context.

(** Lines 180-200: the query function of [singleChatQuery], for a hook
    called with [chatId].  The not-found code of [single()] is turned
    into [null]. *)
Definition singleChat_queryFn (chatId : string) : Hook (option TypeChat) :=
  validateUserAuth ctx;;
  throwIf (negb (validateChatId imports chatId))
    (createChatError "Invalid chat ID provided" "INVALID_CHAT_ID" 400);;
  let* r := request (fun st => (st, chats_single chatId (userId ctx) st)) in
  match error r with
  | Some e =>
      if String.eqb (errorCode e) "PGRST116" then ret None
      else throw (getErrorFromSupabaseError imports e "fetch chat")
  | None => ret (data r)
  end.

(** [from("chats").insert(newChat).select().single()]: the id and the
    creation time of the new row are the store's to choose, so the
    request is a parameter. *)
Variable chats_insert : ChatPatch -> Store -> Store * Reply TypeChat.

(** Lines 261-283.  [chatData] is the object passed in; the row sent is
    [{ ...chatData, user_id: userId }]. *)
Definition createChat_mutationFn (chatData : ChatPatch) : Hook TypeChat :=
  validateUserAuth ctx;;
  (fun w => (w, validateData imports chatData "chat data"));;
  let newChat :=
    {| set_id := set_id chatData; set_user_id := userId ctx;
       set_created_at := set_created_at chatData;
       set_file_id := set_file_id chatData; set_title := set_title chatData |} in
  let* r := request (chats_insert newChat) in
  match error r with
  | Some e => throw (getErrorFromSupabaseError imports e "create chat")
  | None =>
      match data r with
      | None => throw (createChatError "No data returned from chat creation"
                         "NO_DATA_RETURNED" 500)
      | Some c => ret c
      end
  end.

Definition createChatMutation : ChatPatch -> Hook TypeChat :=
  useMutation createChat_mutationFn
    (fun chat => setCache (addChatToCache chat))
    (fun e => let* _ := handleError e "createChat" in ret tt).

(** Lines 363-379.  [listData] is [chatsQuery.data] of the render the
    callback belongs to; the single entry is read from the cache. *)
Definition getChatById (q : QueryCache) (listData : option (list TypeChat))
    (targetChatId : string) : option TypeChat :=
  if negb (validateChatId imports targetChatId) then None
  else
    match chatById q !! targetChatId with
    | Some cachedChat => Some cachedChat
    | None =>
        match listData with
        | Some l => List.find (fun chat => String.eqb (id chat) targetChatId) l
        | None => None
        end
    end.

(** [await deleteChatMutation.mutateAsync(chatId)] *)
Definition mutateAsync_deleteChat (chatId : string) : Handler unit :=
  fun u =>
    let '(w, outcome) := deleteChatMutation imports ctx chatId (world u) in
    ({| world := w; deletingId := deletingId u |},
     match outcome with
     | Returned _ => Returned tt
     | Threw e => Threw e
     end).

Definition setDeletingId (v : option string) : Handler unit :=
  modify (fun u => {| world := world u; deletingId := v |}).

(** Lines 381-395. *)
Definition handleDeleteChat (chatId : string) : Handler unit :=
  (if negb (validateChatId imports chatId)
   then throw (createChatError "Valid chat ID is required" "INVALID_CHAT_ID" 400)
   else ret tt);;
  setDeletingId (Some chatId);;
  tryFinally (mutateAsync_deleteChat chatId) (setDeletingId None).

End RestOfUseChats.

(** The four mutations the hook hands out ([startChatWithFileAsync],
    [createChatAsync], [updateChatAsync], [deleteChatAsync]) with their
    variables, and what they resolve with. *)
Inductive Mutation : Type :=
| StartChatWithFile (fileId : string)
| CreateChat (chatData : ChatPatch)
| UpdateChat (chatId : string) (chatData : ChatPatch)
| DeleteChat (chatId : string).

Inductive Resolved : Type :=
| WithChat (c : TypeChat)
| WithId (chatId : string).

Definition mutateAsync (imports : Imports) (ctx : Context)
    (chats_insert : ChatPatch -> Store -> Store * Reply TypeChat)
    (mu : Mutation) : Hook Resolved :=
  match mu with
  | StartChatWithFile fileId =>
      let* c := startChatWithFileMutation imports ctx fileId in ret (WithChat c)
  | CreateChat chatData =>
      let* c := createChatMutation imports ctx chats_insert chatData in ret (WithChat c)
  | UpdateChat chatId chatData =>
      let* c := updateChatMutation imports ctx (chatId, chatData) in ret (WithChat c)
  | DeleteChat chatId =>
      let* r := deleteChatMutation imports ctx chatId in ret (WithId r)
  end.

(** The cache update a resolved mutation has made. *)
Definition cacheUpdate (mu : Mutation) (r : Resolved) (q : QueryCache) : QueryCache :=
  match mu, r with
  | (StartChatWithFile _ | CreateChat _), WithChat c => addChatToCache c q
  | UpdateChat _ _, WithChat c => updateChatInCache c q
  | DeleteChat _, WithId chatId => removeChatFromCache chatId q
  | _, _ => q
  end.

(** A computation leaves a part of the world as it is, however it ends. *)
Definition preserves {A X} (part : World -> X) (m : Hook A) : Prop :=
  forall w, part (fst (m w)) = part w.

(** Every cache entry is filed under the id of the chat it holds. *)
Definition wellKeyed (q : QueryCache) : Prop :=
  forall k c, chatById q !! k = Some c -> id c = k.

(** The markers [handleError] takes for an expired session. *)
Definition mentionsAuth (message : string) : bool :=
  includes message "JWT expired"
  || includes message "refresh_token_not_found"
  || includes message "Authentication required".

(** An insert that files the new row under a fixed id. *)
Definition demoInsert (newChat : ChatPatch) (st : Store) : Store * Reply TypeChat :=
  match fault st with
  | Some e => (st, {| data := None; error := Some e |})
  | None =>
      let c := applyPatch newChat
                 {| id := "c-new"; user_id := ""; created_at := "2025-01-04";
                    file_id := ""; title := "" |} in
      ({| files := files st; chats := chats st ++ [c]; fault := None |},
       {| data := Some c; error := None |})
  end.

(** A server action that makes the row and answers with no chat. *)
Definition silentImports : Imports := {|
  validateChatId := validateChatId demoImports;
  validateData := validateData demoImports;
  getErrorFromSupabaseError := getErrorFromSupabaseError demoImports;
  createChatWithGemini := fun fileId userId st =>
    (fst (createChatWithGemini demoImports fileId userId st), Returned None)
|}.

Definition bob : Context := {| userId := Some "bob"; supabase := true |}.

Definition nobody : Context := {| userId := None; supabase := true |}.

Definition offline : Store :=
  {| files := files demoStore; chats := chats demoStore;
     fault := Some (PgError "08006" "Failed to fetch") |}.

Definition offlineWorld : World :=
  {| store := offline; queryCache := demoCache; pushed := []; created := [] |}.

End Chats.

(** * Properties of the conversation client *)

Module GeminiFacts.

Import Gemini.
Local Open Scope eff_scope.

(** *** The definitions on concrete inputs *)

(** The test vectors of RFC 4648, section 10. *)
Example toBase64_rfc4648 :
  map toBase64
    [ []; [x66]; [x66; x6f]; [x66; x6f; x6f]; [x66; x6f; x6f; x62];
      [x66; x6f; x6f; x62; x61]; [x66; x6f; x6f; x62; x61; x72] ]%byte
  = [ ""; "Zg=="; "Zm8="; "Zm9v"; "Zm9vYg=="; "Zm9vYmE="; "Zm9vYmFy" ].
Proof. reflexivity. Qed.

Example toBase64_high_bytes : toBase64 [xff; xfe; xfb]%byte = "//77".
Proof. reflexivity. Qed.

Example includes_examples :
  map (fun s => includes s "YouTube")
    [ "Summarise this YouTube video"; "YouTube"; "youtube"; "You Tube"; "" ]
  = [ true; true; false; false; false ]
  /\ includes "abc" "" = true.
Proof. split; reflexivity. Qed.

Example trim_examples :
  map trim [ "  f-1 "; "   "; ""; "a b" ] = [ "f-1"; ""; ""; "a b" ].
Proof. reflexivity. Qed.

Example invoke_ABC_echo :
  invoke echoEnv historyABC None None
  = ([ {| site := ReplayTurn 0; parts := [Text "A"] |};
       {| site := ReplayTurn 1; parts := [Text "B"] |};
       {| site := FinalTurn; parts := [Text "C"] |} ],
     Returned "#2:C").
Proof. reflexivity. Qed.

(** The sentinel picks the YouTube prompt; another file content picks
    it only if the last message mentions YouTube. *)
Example invoke_youtube_prompts :
  map (fun '(fc, last) =>
         map parts (fst (invoke echoEnv [ {| role := user; content := last |} ]
                           (Some fc) None)))
    [ ("YOUTUBE_TRANSCRIPT", "hello"); ("text", "the YouTube clip"); ("text", "hello");
      ("", "hello") ]
  = [ [ [Text (systemPromptPreamble +:+ "YT:YOUTUBE_TRANSCRIPT")]; [Text "hello"] ];
      [ [Text (systemPromptPreamble +:+ "YT:text")]; [Text "the YouTube clip"] ];
      [ [Text (systemPromptPreamble +:+ "RAG:text")]; [Text "hello"] ];
      [ [Text "hello"] ] ].
Proof. reflexivity. Qed.

(** A failing call ends the conversation: the later turns are not sent
    and the reply carries the message of the failure. *)
Example invoke_ABC_flaky :
  invoke flakyEnv historyABC None None
  = ([ {| site := ReplayTurn 0; parts := [Text "A"] |};
       {| site := ReplayTurn 1; parts := [Text "B"] |} ],
     Returned (apology +:+ "503 Service Unavailable")).
Proof. reflexivity. Qed.

Example invoke_ABC_blocked :
  invoke blockedEnv historyABC None None
  = ([ {| site := ReplayTurn 0; parts := [Text "A"] |} ],
     Returned (apology +:+ "blocked: SAFETY")).
Proof. reflexivity. Qed.

(** On the empty history the sentinel still sends its system turn. *)
Example invoke_empty_youtube :
  invoke echoEnv [] (Some "YOUTUBE_TRANSCRIPT") None
  = ([ {| site := SystemTurn;
          parts := [Text (systemPromptPreamble +:+ "YT:YOUTUBE_TRANSCRIPT")] |} ],
     Returned (apology +:+ "Cannot read properties of undefined (reading 'content')")).
Proof. reflexivity. Qed.

(** *** The replay loop and the plan *)

Section Replay.

Variable env : Env.

(** One step of [play], in terms of [answer]. *)
Lemma play_cons (c : Call) (rest : list Call) (s : Session) :
  play env (c :: rest) s =
  match answer env (map parts s) (parts c) with
  | Returned _ => play env rest (s ++ [c])
  | Threw e => (s ++ [c], Threw e)
  end.
Proof.
  cbn [play]. unfold bind, chat_sendMessage, response_text, answer.
  destruct c as [st ps]; cbn [site parts].
  destruct (sendMessage env (map parts s) ps) as [r|e]; [|reflexivity].
  destruct (text r); reflexivity.
Qed.

Lemma play_app (a b : list Call) (s : Session) :
  play env (a ++ b) s = bind (play env a) (fun _ => play env b) s.
Proof.
  revert s. induction a as [|c a IH]; intros s; [reflexivity|].
  cbn [app]. rewrite play_cons. unfold bind. rewrite play_cons.
  destruct (answer env (map parts s) (parts c)); [|reflexivity].
  rewrite IH. reflexivity.
Qed.

(** Whatever the model does, the calls issued are the first so many of
    the list, in its order, and all of them unless an exception ends
    the run. *)
Lemma play_outcome (calls : list Call) (s : Session) :
  match play env calls s with
  | (s', Returned _) => s' = s ++ calls
  | (s', Threw _) => exists issued, s' = s ++ issued /\ issued `prefix_of` calls
  end.
Proof.
  revert s. induction calls as [|c rest IH]; intros s.
  - cbn. by rewrite app_nil_r.
  - rewrite play_cons. destruct (answer env (map parts s) (parts c)).
    + specialize (IH (s ++ [c])).
      destruct (play env rest (s ++ [c])) as [s' [[]|e]].
      * by rewrite IH, <- app_assoc.
      * destruct IH as (issued & -> & Hpre). exists (c :: issued).
        split; [by rewrite <- app_assoc | by apply prefix_cons].
    + exists [c]. split; [done|]. by apply prefix_cons, prefix_nil.
Qed.

Lemma play_answered (calls : list Call) (s : Session) :
  answered env (map parts s) (map parts calls) = true ->
  play env calls s = (s ++ calls, Returned tt).
Proof.
  revert s. induction calls as [|c rest IH]; intros s H.
  - cbn. by rewrite app_nil_r.
  - rewrite play_cons. cbn [answered map] in H.
    destruct (answer env (map parts s) (parts c)); [|discriminate].
    rewrite IH.
    + by rewrite <- app_assoc.
    + by rewrite map_app.
Qed.

Lemma answered_app (history a b : list Request) :
  answered env history (a ++ b) =
  answered env history a && answered env (history ++ a) b.
Proof.
  revert history. induction a as [|r a IH]; intros history.
  - cbn. by rewrite app_nil_r.
  - cbn [answered app]. destruct (answer env history r); [|reflexivity].
    rewrite IH, <- app_assoc. reflexivity.
Qed.

Lemma replayBody_at (messages : list ChatMessage) (i : nat) (m : ChatMessage)
    (s : Session) :
  messages !! i = Some m ->
  replayBody env messages i s =
  match answer env (map parts s) [Text (content m)] with
  | Returned _ => (s ++ [replayTurn i m], Returned tt)
  | Threw e => (s ++ [replayTurn i m], Threw e)
  end.
Proof.
  intros Hm. unfold replayBody. cbv zeta. rewrite Hm.
  unfold bind, content_of, ret, chat_sendMessage, response_text, answer, replayTurn.
  destruct (sendMessage env (map parts s) [Text (content m)]) as [r|e]; [|reflexivity].
  destruct (text r); reflexivity.
Qed.

(** The loop from index [length pre] on. *)
Lemma forEach_replay (prior pre rest : list ChatMessage) (s : Session) :
  forEach (seq (length pre) (length prior)) (replayBody env (pre ++ prior ++ rest)) s
  = play env (imap (fun i m => replayTurn (length pre + i) m) prior) s.
Proof.
  revert pre s. induction prior as [|m prior IH]; intros pre s; [reflexivity|].
  cbn [length seq forEach imap]. rewrite play_cons. unfold bind.
  rewrite (replayBody_at _ _ m) by (by apply list_lookup_middle).
  rewrite Nat.add_0_r. cbn [replayTurn parts].
  destruct (answer env (map parts s) [Text (content m)]); [|reflexivity].
  specialize (IH (pre ++ [m]) (s ++ [replayTurn (length pre) m])).
  rewrite length_app in IH. cbn [length] in IH.
  rewrite Nat.add_1_r, <- app_assoc in IH. cbn [app] in IH.
  change (pre ++ (m :: prior) ++ rest) with (pre ++ m :: prior ++ rest).
  unfold replayTurn in IH |- *. rewrite IH.
  f_equal. apply imap_ext. intros i x _. cbn. f_equal. f_equal. lia.
Qed.

Lemma replayPrevious_play (prior : list ChatMessage) (m : ChatMessage) (s : Session) :
  replayPrevious env (prior ++ [m]) s = play env (replayTurns prior) s.
Proof.
  unfold replayPrevious. rewrite length_app. cbn [length].
  replace (length prior + 1 - 1)%nat with (length prior) by lia.
  destruct prior as [|m0 prior].
  - reflexivity.
  - replace (1 <? length (m0 :: prior) + 1)%nat with true
      by (symmetry; apply Nat.ltb_lt; cbn; lia).
    apply (forEach_replay (m0 :: prior) [] [m] s).
Qed.

Lemma replayPrevious_nil (s : Session) :
  replayPrevious env [] s = (s, Returned tt).
Proof. reflexivity. Qed.

Lemma lastMessage_snoc (prior : list ChatMessage) (m : ChatMessage) :
  lastMessage (prior ++ [m]) = Some m.
Proof.
  unfold lastMessage. rewrite length_app, Nat.add_1_r.
  by apply list_lookup_middle.
Qed.

Lemma sendSystemPrompt_play (prior : list ChatMessage) (m : ChatMessage)
    (fileContent : option string) (s : Session) :
  sendSystemPrompt env (prior ++ [m]) fileContent s
  = play env (systemTurns env (prior ++ [m]) fileContent) s.
Proof.
  unfold sendSystemPrompt, systemTurns, chooseSystemPrompt, systemPromptFor.
  destruct fileContent as [fc|]; [|reflexivity].
  destruct (truthy fc); [|reflexivity]. cbn [andb].
  rewrite lastMessage_snoc. cbn [content_of].
  destruct (String.eqb fc "IMAGE_FILE"); [reflexivity|].
  destruct (String.eqb fc "YOUTUBE_TRANSCRIPT").
  - unfold bind at 1, ret at 1.
    destruct (truthy (createYoutubeSystemPrompt env fc)); reflexivity.
  - unfold bind at 1, ret at 1. unfold bind at 1.
    destruct (includes (content m) "YouTube"); unfold ret at 1.
    + destruct (truthy (createYoutubeSystemPrompt env fc)); reflexivity.
    + destruct (truthy (createRagSystemPrompt env fc)); reflexivity.
Qed.

Lemma sendLast_snoc (prior : list ChatMessage) (m : ChatMessage)
    (imageData : option ImageData) (s : Session) :
  sendLast env (prior ++ [m]) imageData s
  = (s ++ [finalTurn m imageData], answer env (map parts s) (finalParts m imageData)).
Proof.
  unfold sendLast. cbv zeta. rewrite lastMessage_snoc.
  unfold bind, content_of, ret, chat_sendMessage, response_text, answer,
    finalTurn, finalParts.
  destruct imageData as [img|].
  - destruct (sendMessage env (map parts s) _); reflexivity.
  - destruct (sendMessage env (map parts s) _); reflexivity.
Qed.

(** With the key configured, the [try] block on a history that is not
    empty holds the planned conversation. *)
Lemma tryBlock_snoc (prior : list ChatMessage) (m : ChatMessage)
    (fileContent : option string) (imageData : option ImageData) (s : Session) :
  isGeminiConfigured env = true ->
  tryBlock env (prior ++ [m]) fileContent imageData s
  = bind (play env (systemTurns env (prior ++ [m]) fileContent ++ replayTurns prior))
      (fun _ => sendLast env (prior ++ [m]) imageData) s.
Proof.
  intros Hkey. unfold tryBlock. rewrite Hkey. cbn [negb].
  unfold bind at 1, ret at 1.
  unfold bind at 3. rewrite play_app.
  unfold bind. rewrite sendSystemPrompt_play.
  destruct (play env (systemTurns env (prior ++ [m]) fileContent) s) as [s1 [[]|e]];
    [|reflexivity].
  rewrite replayPrevious_play. reflexivity.
Qed.

Lemma tryBlock_unconfigured (messages : list ChatMessage)
    (fileContent : option string) (imageData : option ImageData) (s : Session) :
  isGeminiConfigured env = false ->
  tryBlock env messages fileContent imageData s
  = (s, Threw (ErrorObject "Gemini API key is not configured")).
Proof. intros Hkey. unfold tryBlock. rewrite Hkey. reflexivity. Qed.

(** The [catch] clause issues no call. *)
Lemma invoke_tryBlock (messages : list ChatMessage)
    (fileContent : option string) (imageData : option ImageData) :
  invoke env messages fileContent imageData =
  match tryBlock env messages fileContent imageData createChatSession with
  | (calls, Returned reply) => (calls, Returned reply)
  | (calls, Threw e) =>
      (calls,
       match e with
       | ErrorObject message => Returned (apology +:+ message)
       | OtherValue shown => Returned (apology +:+ shown)
       | Unprintable raised => Threw raised
       end)
  end.
Proof.
  unfold invoke, sendMessageToGemini, tryCatch, catchClause.
  destruct (tryBlock env messages fileContent imageData createChatSession)
    as [calls [reply|[message|shown|raised]]]; reflexivity.
Qed.

(** The calls of an invocation are the first so many of the plan. *)
Lemma invoke_prefix (prior : list ChatMessage) (m : ChatMessage)
    (fileContent : option string) (imageData : option ImageData) :
  fst (invoke env (prior ++ [m]) fileContent imageData)
    `prefix_of` plan env prior m fileContent imageData.
Proof.
  rewrite invoke_tryBlock.
  destruct (isGeminiConfigured env) eqn:Hkey.
  - rewrite tryBlock_snoc by done. unfold bind, plan.
    pose proof (play_outcome
      (systemTurns env (prior ++ [m]) fileContent ++ replayTurns prior)
      createChatSession) as Hplay.
    destruct (play env _ createChatSession) as [s1 [[]|e]].
    + rewrite sendLast_snoc. subst s1. cbn [createChatSession app].
      rewrite app_assoc.
      destruct (answer env _ _); done.
    + destruct Hplay as (issued & -> & Hpre). cbn [createChatSession app fst].
      rewrite app_assoc. by apply prefix_app_r.
  - rewrite tryBlock_unconfigured by done. apply prefix_nil.
Qed.

(** If the key is configured and the model answers every planned
    call, the invocation holds the whole plan and returns the answer
    to its last call. *)
Lemma invoke_plan (prior : list ChatMessage) (m : ChatMessage)
    (fileContent : option string) (imageData : option ImageData) :
  isGeminiConfigured env = true ->
  answered env [] (map parts (plan env prior m fileContent imageData)) = true ->
  exists reply,
    invoke env (prior ++ [m]) fileContent imageData
      = (plan env prior m fileContent imageData, Returned reply)
    /\ answer env
         (map parts (systemTurns env (prior ++ [m]) fileContent ++ replayTurns prior))
         (finalParts m imageData) = Returned reply.
Proof.
  intros Hkey Hans. unfold plan in *. rewrite app_assoc in Hans |- *.
  rewrite map_app, answered_app in Hans. cbn [app] in Hans.
  apply andb_prop in Hans as [Hfirst Hlast].
  cbn [map answered finalTurn parts] in Hlast.
  destruct (answer env _ (finalParts m imageData)) as [reply|] eqn:Hreply;
    [|discriminate].
  exists reply. split; [|done].
  rewrite invoke_tryBlock, tryBlock_snoc by done. unfold bind.
  rewrite play_answered by done. cbn [createChatSession app].
  rewrite sendLast_snoc, Hreply. reflexivity.
Qed.

Lemma sendSystemPrompt_nil (fileContent : option string) (s : Session) :
  sendSystemPrompt env [] fileContent s =
  if readsLastMessage fileContent then (s, Threw undefinedContent)
  else play env (systemTurns env [] fileContent) s.
Proof.
  unfold sendSystemPrompt, systemTurns, chooseSystemPrompt, systemPromptFor,
    readsLastMessage.
  destruct fileContent as [fc|]; [|reflexivity].
  destruct (truthy fc); [|reflexivity]. cbn [andb].
  destruct (String.eqb fc "IMAGE_FILE"); [reflexivity|].
  destruct (String.eqb fc "YOUTUBE_TRANSCRIPT"); [|reflexivity].
  cbn [negb]. unfold bind at 1, ret at 1.
  destruct (truthy (createYoutubeSystemPrompt env fc)); reflexivity.
Qed.

Lemma systemTurns_nil_reads (fileContent : option string) :
  readsLastMessage fileContent = true -> systemTurns env [] fileContent = [].
Proof.
  unfold readsLastMessage, systemTurns, systemPromptFor.
  destruct fileContent as [fc|]; [|done].
  destruct (String.eqb fc "IMAGE_FILE"); [by rewrite andb_false_r|].
  destruct (String.eqb fc "YOUTUBE_TRANSCRIPT"); [by rewrite andb_false_r|].
  cbn. by rewrite andb_false_r.
Qed.

(** On the empty history the [try] block always ends in an exception,
    after the system turn at most. *)
Lemma tryBlock_nil (fileContent : option string) (imageData : option ImageData) :
  exists calls e,
    tryBlock env [] fileContent imageData createChatSession = (calls, Threw e)
    /\ calls `prefix_of` systemTurns env [] fileContent
    /\ (isGeminiConfigured env = true ->
        answered env [] (map parts (systemTurns env [] fileContent)) = true ->
        calls = systemTurns env [] fileContent /\ e = undefinedContent).
Proof.
  destruct (isGeminiConfigured env) eqn:Hkey.
  2:{ eexists _, _. rewrite tryBlock_unconfigured by done.
      split; [reflexivity|]. split; [apply prefix_nil | discriminate]. }
  unfold tryBlock. rewrite Hkey. cbn [negb]. unfold bind.
  cbn [ret]. rewrite sendSystemPrompt_nil.
  destruct (readsLastMessage fileContent) eqn:Hreads.
  { rewrite systemTurns_nil_reads by done.
    eexists _, _. split; [reflexivity|]. split; done. }
  pose proof (play_outcome (systemTurns env [] fileContent) createChatSession) as Hplay.
  pose proof (play_answered (systemTurns env [] fileContent) createChatSession) as Hans.
  destruct (play env (systemTurns env [] fileContent) createChatSession)
    as [s1 [[]|e]].
  - cbn in Hplay. subst s1. eexists _, _. split; [reflexivity|]. split; done.
  - destruct Hplay as (issued & -> & Hpre).
    eexists _, _. split; [reflexivity|]. split; [done|].
    intros _ H. specialize (Hans H). discriminate.
Qed.



Lemma systemTurns_site (messages : list ChatMessage) (fileContent : option string) :
  Forall (fun c => site c = SystemTurn) (systemTurns env messages fileContent).
Proof.
  unfold systemTurns. destruct fileContent as [fc|]; [|constructor].
  destruct (truthy fc && truthy _); repeat constructor.
Qed.

Lemma replayTurns_spec (prior : list ChatMessage) (c : Call) :
  c ∈ replayTurns prior ->
  exists i m, prior !! i = Some m /\ c = replayTurn i m.
Proof.
  unfold replayTurns. intros (i & Hi)%list_elem_of_lookup_1.
  rewrite list_lookup_imap in Hi.
  destruct (prior !! i) as [m|] eqn:Hm; [|discriminate].
  exists i, m. split; [done|]. by injection Hi.
Qed.

End Replay.

(** No environment makes the history [A, B, C] a conversation of one
    replay call and one final call: the second call, if there is one,
    carries ["B"]. *)
Lemma oneReplayOneFinal_never (env : Env) :
  ~ oneReplayOneFinal "A" "C" (invoke env historyABC None None).
Proof.
  intros (i & reply & H).
  pose proof (invoke_prefix env
    [ {| role := user; content := "A" |}; {| role := model; content := "B" |} ]
    {| role := user; content := "C" |} None None) as [k Hk].
  unfold historyABC in H. cbn [app] in Hk.
  rewrite H in Hk. cbn in Hk. discriminate.
Qed.

(** C1, as the specification words it, fails: on the history
    [{user,"A"}, {model,"B"}, {user,"C"}], with a configured key and a
    model that answers every call, the client does not issue one replay
    call and one final call; it issues three calls. *)
Lemma history_ABC_is_not_one_replay_one_final :
  ~ oneReplayOneFinal "A" "C" (invoke echoEnv historyABC None None).
Proof.
  intros (i & reply & H). vm_compute in H. discriminate.
Qed.

(** C1, amended: on the history [{user,"A"}, {model,"B"}, {user,"C"}]
    with no file content and no image, if the key is configured and the
    model answers the three calls, the client issues two replay calls,
    carrying "A" and then "B", and one final call carrying "C", and
    returns the model's reply to "C" only. *)
Theorem history_ABC_replays_A_and_B (env : Env) :
  isGeminiConfigured env = true ->
  answered env [] [[Text "A"]; [Text "B"]; [Text "C"]] = true ->
  exists reply,
    invoke env historyABC None None
      = ([ {| site := ReplayTurn 0; parts := [Text "A"] |};
           {| site := ReplayTurn 1; parts := [Text "B"] |};
           {| site := FinalTurn; parts := [Text "C"] |} ],
         Returned reply)
    /\ answer env [[Text "A"]; [Text "B"]] [Text "C"] = Returned reply.
Proof.
  intros Hkey Hans.
  exact (invoke_plan env
    [ {| role := user; content := "A" |}; {| role := model; content := "B" |} ]
    {| role := user; content := "C" |} None None Hkey Hans).
Qed.

Lemma history_ABC_replays_A_and_B_echo :
  exists reply,
    invoke echoEnv historyABC None None
      = ([ {| site := ReplayTurn 0; parts := [Text "A"] |};
           {| site := ReplayTurn 1; parts := [Text "B"] |};
           {| site := FinalTurn; parts := [Text "C"] |} ],
         Returned reply)
    /\ answer echoEnv [[Text "A"]; [Text "B"]] [Text "C"] = Returned reply.
Proof.
  apply (history_ABC_replays_A_and_B echoEnv); reflexivity.
Defined.

(** C2: on every history [prior ++ [m]] (every history of length
    [n >= 1], [prior] being its first [n-1] messages) the calls issued
    are the first so many of the plan: the system turn if any, then one
    turn per message of [prior], whatever its role, in index order, then
    the final turn.  If the key is configured and the model answers each
    call, all of the plan is issued and the value returned is the text
    of the reply to the final call; the replies to the earlier calls are
    not part of it. *)
Theorem replays_prior_turns_in_order (env : Env) (prior : list ChatMessage)
    (m : ChatMessage) (fileContent : option string) (imageData : option ImageData) :
  fst (invoke env (prior ++ [m]) fileContent imageData)
    `prefix_of` (systemTurns env (prior ++ [m]) fileContent
                   ++ imap (fun i msg => {| site := ReplayTurn i;
                                             parts := [Text (content msg)] |}) prior
                   ++ [finalTurn m imageData])
  /\ (isGeminiConfigured env = true ->
      answered env [] (map parts (plan env prior m fileContent imageData)) = true ->
      exists reply,
        invoke env (prior ++ [m]) fileContent imageData
          = (systemTurns env (prior ++ [m]) fileContent
               ++ imap (fun i msg => {| site := ReplayTurn i;
                                         parts := [Text (content msg)] |}) prior
               ++ [finalTurn m imageData],
             Returned reply)
        /\ answer env
             (map parts (systemTurns env (prior ++ [m]) fileContent ++ replayTurns prior))
             (finalParts m imageData) = Returned reply).
Proof.
  split.
  - apply invoke_prefix.
  - apply invoke_plan.
Qed.

Lemma replays_prior_turns_in_order_echo :
  exists reply,
    invoke echoEnv historyABC (Some "meeting notes") None
      = ([ {| site := SystemTurn;
              parts := [Text (systemPromptPreamble +:+ "RAG:meeting notes")] |};
           {| site := ReplayTurn 0; parts := [Text "A"] |};
           {| site := ReplayTurn 1; parts := [Text "B"] |};
           {| site := FinalTurn; parts := [Text "C"] |} ],
         Returned reply)
    /\ answer echoEnv
         [ [Text (systemPromptPreamble +:+ "RAG:meeting notes")];
           [Text "A"]; [Text "B"] ] [Text "C"] = Returned reply.
Proof.
  apply (proj2 (replays_prior_turns_in_order echoEnv
    [ {| role := user; content := "A" |}; {| role := model; content := "B" |} ]
    {| role := user; content := "C" |} (Some "meeting notes") None)); reflexivity.
Defined.




(** A value that is no [Error] and converts: its string is embedded. *)
Example blocked_reply_embeds_the_string :
  invoke blockedEnv historyABC None None
  = ([ {| site := ReplayTurn 0; parts := [Text "A"] |} ],
     Returned "I'm sorry, I encountered an error while processing your request. blocked: SAFETY").
Proof. reflexivity. Qed.

(** C4: with an empty API key every invocation returns the error reply
    for the missing configuration and issues no call. *)
Theorem unconfigured_key_sends_nothing (env : Env) (messages : list ChatMessage)
    (fileContent : option string) (imageData : option ImageData) :
  API_KEY env = "" ->
  invoke env messages fileContent imageData
    = ([], Returned (apology +:+ "Gemini API key is not configured")).
Proof.
  intros Hkey. rewrite invoke_tryBlock, tryBlock_unconfigured; [reflexivity|].
  unfold isGeminiConfigured. by rewrite Hkey.
Qed.

Lemma unconfigured_key_sends_nothing_echo :
  invoke unconfiguredEnv historyABC (Some "meeting notes") (Some pixel)
    = ([], Returned (apology +:+ "Gemini API key is not configured")).
Proof.
  apply (unconfigured_key_sends_nothing unconfiguredEnv); reflexivity.
Defined.

(** C5: on every history [prior ++ [m]] with file content "IMAGE_FILE"
    and an image, no call is a system turn, the only call that carries
    inline data is the final one, which holds the text of [m], the
    image in base64 and its MIME type; with the key configured and a
    model that answers, the calls are the replayed turns and then that
    final turn. *)
Theorem image_goes_with_final_turn_only (env : Env) (prior : list ChatMessage)
    (m : ChatMessage) (img : ImageData) :
  let final :=
    {| site := FinalTurn;
       parts := [Text (content m); InlineData (toBase64 (buffer img)) (mimeType img)] |} in
  let calls := fst (invoke env (prior ++ [m]) (Some "IMAGE_FILE") (Some img)) in
  Forall (fun c => site c <> SystemTurn) calls
  /\ Forall (fun c => carriesImage c = true -> c = final) calls
  /\ Forall (fun c => site c = FinalTurn -> c = final) calls
  /\ (isGeminiConfigured env = true ->
      answered env [] (map parts (replayTurns prior ++ [final])) = true ->
      exists reply,
        invoke env (prior ++ [m]) (Some "IMAGE_FILE") (Some img)
          = (replayTurns prior ++ [final], Returned reply)).
Proof.
  intros final calls.
  assert (Hplan : plan env prior m (Some "IMAGE_FILE") (Some img)
                  = replayTurns prior ++ [final]) by reflexivity.
  assert (Hin : forall c, c ∈ calls -> c ∈ replayTurns prior \/ c = final).
  { intros c Hc. pose proof (invoke_prefix env prior m (Some "IMAGE_FILE") (Some img)) as Hpre.
    rewrite Hplan in Hpre. destruct Hpre as [k Hk].
    assert (c ∈ replayTurns prior ++ [final]) as Hc'
      by (rewrite Hk; apply elem_of_app; by left).
    apply elem_of_app in Hc' as [?|Hf]; [by left|].
    right. by apply list_elem_of_singleton in Hf. }
  repeat split.
  - apply Forall_forall. intros c [Hc| ->]%Hin; [|done].
    apply replayTurns_spec in Hc as (i & m' & _ & ->). done.
  - apply Forall_forall. intros c [Hc| ->]%Hin; [|done].
    apply replayTurns_spec in Hc as (i & m' & _ & ->). discriminate.
  - apply Forall_forall. intros c [Hc| ->]%Hin; [|done].
    apply replayTurns_spec in Hc as (i & m' & _ & ->). discriminate.
  - intros Hkey Hans. rewrite <- Hplan in Hans |- *.
    destruct (invoke_plan env prior m (Some "IMAGE_FILE") (Some img) Hkey Hans)
      as (reply & Hinv & _).
    by exists reply.
Qed.

Lemma image_goes_with_final_turn_only_echo :
  exists reply,
    invoke echoEnv historyABC (Some "IMAGE_FILE") (Some pixel)
      = ([ {| site := ReplayTurn 0; parts := [Text "A"] |};
           {| site := ReplayTurn 1; parts := [Text "B"] |};
           {| site := FinalTurn;
              parts := [Text "C"; InlineData "iVBORw==" "image/png"] |} ],
         Returned reply).
Proof.
  apply (proj2 (proj2 (proj2 (image_goes_with_final_turn_only echoEnv
    [ {| role := user; content := "A" |}; {| role := model; content := "B" |} ]
    {| role := user; content := "C" |} pixel)))); reflexivity.
Defined.




(** Without file content the empty history issues no call at all. *)
Example empty_history_without_file :
  invoke echoEnv [] None None
  = ([], Returned "I'm sorry, I encountered an error while processing your request. Cannot read properties of undefined (reading 'content')").
Proof. reflexivity. Qed.

End GeminiFacts.

(** * Properties of the chat hook *)

Module ChatsFacts.

Import Chats.
Local Open Scope eff_scope.

(** *** The definitions on concrete inputs *)

Example startChat_own_file :
  let '(w', outcome) := startChatWithFileMutation demoImports alice "f-alice" demoWorld in
  summary w' = (["chat-f-alice"; "c1"; "c2"; "c3"], Some ["chat-f-alice"; "c2"; "c1"],
                ["c1"; "c2"], [], [("f-alice", Some "alice")])
  /\ (id <$> outcome_value outcome) = Some "chat-f-alice".
Proof. split; reflexivity. Qed.

Example startChat_missing_file :
  startChatWithFileMutation demoImports alice "f-none" demoWorld
  = (demoWorld, Threw (createChatError "File not found" "FILE_NOT_FOUND" 404)).
Proof. reflexivity. Qed.

Example startChat_blank_id :
  startChatWithFileMutation demoImports alice "   " demoWorld
  = (demoWorld, Threw (createChatError "Valid file ID is required" "INVALID_FILE_ID" 400)).
Proof. reflexivity. Qed.

Example startChat_signed_out :
  startChatWithFileMutation demoImports {| userId := None; supabase := true |}
    "f-bob" demoWorld
  = (demoWorld, Threw (createChatError "User not authenticated" "NO_USER_ID" 401)).
Proof. reflexivity. Qed.

Example delete_own_chat :
  let '(w', outcome) := deleteChatMutation demoImports alice "c1" demoWorld in
  summary w' = (["c2"; "c3"], Some ["c2"], ["c2"], [], [])
  /\ outcome = Returned "c1".
Proof. split; reflexivity. Qed.

(** An expired session sends the browser to the login page. *)
Example delete_with_expired_session :
  let down := {| store := {| files := []; chats := [chat1];
                            fault := Some (PgError "PGRST301" "JWT expired") |};
                 queryCache := demoCache; pushed := []; created := [] |} in
  let '(w', outcome) := deleteChatMutation demoImports alice "c1" down in
  summary w' = (["c1"], Some ["c2"; "c1"], ["c1"; "c2"], ["/login"], [])
  /\ outcome = Threw (OtherError "delete chat: JWT expired").
Proof. split; reflexivity. Qed.

(** Another user's chat is not updated: [single()] finds no row. *)
Example update_foreign_chat :
  updateChatMutation demoImports alice ("c3", rename "Mine now") demoWorld
  = (demoWorld,
     Threw (OtherError
       "update chat: JSON object requested, multiple (or no) rows returned")).
Proof. reflexivity. Qed.

(** *** The mutations *)

(** A computation that ends in [throw] never returns. *)
Lemma bind_throw_threw {S E A B} (m : Eff S E A) (e : E) (s : S) :
  exists s' e', bind m (fun _ => throw (A:=B) e) s = (s', Threw e').
Proof.
  unfold bind, throw. destruct (m s) as [s' [a|e']]; eauto.
Qed.

Section Mutations.

Variable imports : Imports.
Variable ctx : Context.

(** A mutation resolves only if its function resolved and the success
    callback ran. *)
Lemma useMutation_success {V A} (mutationFn : V -> Hook A)
    (onSuccess : A -> Hook unit) (onError : Thrown -> Hook unit)
    (v : V) (w w' : World) (a : A) :
  useMutation mutationFn onSuccess onError v w = (w', Returned a) ->
  exists w1, mutationFn v w = (w1, Returned a) /\ onSuccess a w1 = (w', Returned tt).
Proof.
  unfold useMutation, tryCatch. unfold bind at 1.
  destruct (mutationFn v w) as [w1 [a1|e]] eqn:Hfn.
  - unfold bind at 1, ret. destruct (onSuccess a1 w1) as [w2 [[]|e]] eqn:Hcb.
    + intros [= <- <-]. by exists w1.
    + intros H. destruct (bind_throw_threw (B:=A) (onError e) e w2) as (s' & e' & He).
      rewrite He in H. discriminate.
  - intros H. destruct (bind_throw_threw (B:=A) (onError e) e w1) as (s' & e' & He).
    rewrite He in H. discriminate.
Qed.

Lemma validateUserAuth_ok (w : World) :
  truthy_opt (userId ctx) = true -> supabase ctx = true ->
  validateUserAuth ctx w = (w, Returned tt).
Proof.
  intros Hu Hs. unfold validateUserAuth, throwIf, bind. by rewrite Hu, Hs.
Qed.

(** The delete request leaves the cache to the success callback. *)
Lemma deleteChat_mutationFn_returned (chatId : string) (w w1 : World) (r : string) :
  deleteChat_mutationFn imports ctx chatId w = (w1, Returned r) ->
  r = chatId /\ queryCache w1 = queryCache w.
Proof.
  unfold deleteChat_mutationFn, validateUserAuth, throwIf, bind, request, ret, throw.
  destruct (truthy_opt (userId ctx)); [|discriminate].
  destruct (supabase ctx); [|discriminate].
  destruct (validateChatId imports chatId); [|discriminate]. cbn [negb].
  destruct (chats_delete chatId (userId ctx) (store w)) as [st rep].
  destruct (error rep); [discriminate|].
  by intros [= <- <-].
Qed.

Lemma updateChat_mutationFn_returned (vars : string * ChatPatch) (w w1 : World)
    (c : TypeChat) :
  updateChat_mutationFn imports ctx vars w = (w1, Returned c) ->
  queryCache w1 = queryCache w.
Proof.
  destruct vars as [chatId chatData].
  unfold updateChat_mutationFn, validateUserAuth, throwIf, bind, request, ret, throw.
  destruct (truthy_opt (userId ctx)); [|discriminate].
  destruct (supabase ctx); [|discriminate].
  destruct (validateChatId imports chatId); [|discriminate]. cbn [negb].
  destruct (validateData imports chatData "chat data"); [|discriminate].
  destruct (chats_update chatData chatId (userId ctx) (store w)) as [st rep].
  destruct (error rep); [discriminate|].
  destruct (data rep); [|discriminate].
  by intros [= <- <-].
Qed.

Lemma deleteChatMutation_success (chatId : string) (w w' : World) (r : string) :
  deleteChatMutation imports ctx chatId w = (w', Returned r) ->
  r = chatId /\ queryCache w' = removeChatFromCache chatId (queryCache w).
Proof.
  intros (w1 & Hfn & Hcb)%useMutation_success.
  apply deleteChat_mutationFn_returned in Hfn as [-> Hq].
  split; [done|]. unfold setCache, modify in Hcb.
  injection Hcb as <-. cbn. by rewrite Hq.
Qed.

Lemma updateChatMutation_success (vars : string * ChatPatch) (w w' : World)
    (c : TypeChat) :
  updateChatMutation imports ctx vars w = (w', Returned c) ->
  queryCache w' = updateChatInCache c (queryCache w).
Proof.
  intros (w1 & Hfn & Hcb)%useMutation_success.
  apply updateChat_mutationFn_returned in Hfn as Hq.
  unfold setCache, modify in Hcb.
  injection Hcb as <-. cbn. by rewrite Hq.
Qed.

End Mutations.

(** A primary key selects its row and nothing else. *)
Lemma filter_primary_key (rows : list TypeFile.t) (row : TypeFile.t) :
  NoDup (TypeFile.id <$> rows) -> row ∈ rows ->
  List.filter (fun f => String.eqb (TypeFile.id f) (TypeFile.id row)) rows = [row].
Proof.
  induction rows as [|r rows IH]; intros Hnd Hin; [by apply elem_of_nil in Hin|].
  rewrite fmap_cons in Hnd. apply NoDup_cons in Hnd as [Hr Hnd].
  assert (Hnone : forall k, k ∉ (TypeFile.id <$> rows) ->
            List.filter (fun f => String.eqb (TypeFile.id f) k) rows = []).
  { clear. intros k. induction rows as [|r rows IH]; intros Hk; [done|].
    rewrite fmap_cons in Hk. apply not_elem_of_cons in Hk as [Hne Hk].
    cbn. apply not_eq_sym, String.eqb_neq in Hne. rewrite Hne. by apply IH. }
  cbn [List.filter]. apply elem_of_cons in Hin as [->|Hin].
  - rewrite String.eqb_refl. by rewrite Hnone.
  - assert (TypeFile.id r <> TypeFile.id row) as Hne.
    { intros Heq. apply Hr. rewrite Heq. by apply list_elem_of_fmap_2. }
    apply String.eqb_neq in Hne. rewrite Hne. by apply IH.
Qed.

Lemma lookup_map {A B} (f : A -> B) (l : list A) (i : nat) :
  map f l !! i = f <$> (l !! i).
Proof.
  revert i. induction l as [|x l IH]; intros [|i]; cbn; auto.
Qed.

Lemma elem_of_filter {A} (p : A -> bool) (l : list A) (x : A) :
  x ∈ List.filter p l <-> x ∈ l /\ p x = true.
Proof.
  rewrite !list_elem_of_In. apply List.filter_In.
Qed.

Lemma filter_all {A} (p : A -> bool) (l : list A) :
  Forall (fun x => p x = true) l -> List.filter p l = l.
Proof.
  induction 1 as [|x l Hx _ IH]; [done|]. cbn. by rewrite Hx, IH.
Qed.

(** C6: for a signed-in caller and a file identifier that is not blank,
    if the [files] table holds the row of that identifier and its
    [user_id] is not the caller's, the start-chat-with-file mutation
    fails with the error of kind FILE_ACCESS_DENIED and leaves the
    world as it was: [createChatWithGemini] is not called, no row is
    inserted, the cache is not touched. *)
Theorem foreign_file_is_denied (imports : Imports) (ctx : Context) (w : World)
    (fileId u : string) (row : TypeFile.t) :
  userId ctx = Some u -> truthy u = true -> supabase ctx = true ->
  truthy (trim fileId) = true ->
  fault (store w) = None ->
  NoDup (TypeFile.id <$> files (store w)) ->
  row ∈ files (store w) -> TypeFile.id row = fileId ->
  TypeFile.user_id row <> u ->
  startChatWithFileMutation imports ctx fileId w
    = (w, Threw (createChatError "File access denied" "FILE_ACCESS_DENIED" 403)).
Proof.
  intros Hu Htru Hs Hid Hfault Hkey Hrow <- Hforeign.
  assert (Hfn : startChatWithFile_mutationFn imports ctx (TypeFile.id row) w
                = (w, Threw (createChatError "File access denied"
                               "FILE_ACCESS_DENIED" 403))).
  { unfold startChatWithFile_mutationFn. unfold bind at 1.
    rewrite validateUserAuth_ok by (rewrite ?Hu; done).
    unfold throwIf, bind, request, ret, throw, files_maybeSingle.
    rewrite Hid. cbn [negb]. cbv beta iota.
    rewrite Hfault, filter_primary_key by done. cbn.
    rewrite Hu, bool_decide_eq_false_2 by congruence.
    destruct w; reflexivity. }
  unfold startChatWithFileMutation, useMutation, tryCatch. unfold bind at 1.
  rewrite Hfn. reflexivity.
Qed.

Lemma foreign_file_is_denied_demo :
  startChatWithFileMutation demoImports alice "f-bob" demoWorld
    = (demoWorld, Threw (createChatError "File access denied" "FILE_ACCESS_DENIED" 403)).
Proof.
  apply (foreign_file_is_denied demoImports alice demoWorld "f-bob" "alice"
           {| TypeFile.id := "f-bob"; TypeFile.user_id := "bob" |});
    try reflexivity.
  - apply NoDup_cons_2; [|apply NoDup_singleton].
    intros H%list_elem_of_singleton. discriminate.
  - apply list_elem_of_further, list_elem_of_here.
  - discriminate.
Defined.

(** C7: when the delete-chat mutation for [chatId] succeeds, the cache
    holds no entry for [chatId] and the list cache is the old list
    without the elements whose id is [chatId]; nothing else changed: the
    entry of every other id is the one it was, and the list elements
    with another id are all kept, in their order. *)
Theorem delete_success_removes_chat_from_cache (imports : Imports) (ctx : Context)
    (chatId : string) (w w' : World) (r : string) :
  deleteChatMutation imports ctx chatId w = (w', Returned r) ->
  exists l',
    chatById (queryCache w') !! chatId = None
    /\ chatList (queryCache w') = Some l'
    /\ l' = List.filter (fun chat => negb (String.eqb (id chat) chatId))
              (default [] (chatList (queryCache w)))
    /\ (forall chat, chat ∈ l' -> id chat <> chatId)
    /\ (forall chat, id chat <> chatId ->
          chat ∈ l' <-> chat ∈ default [] (chatList (queryCache w)))
    /\ (forall other, other <> chatId ->
          chatById (queryCache w') !! other = chatById (queryCache w) !! other).
Proof.
  intros [_ Hq]%deleteChatMutation_success. rewrite Hq.
  set (old := default [] (chatList (queryCache w))).
  exists (List.filter (fun chat => negb (String.eqb (id chat) chatId)) old).
  unfold removeChatFromCache, updateChatListCache. cbn [chatById chatList].
  split; [apply lookup_delete_eq|].
  split; [by subst old; destruct (chatList (queryCache w))|].
  split; [done|].
  split; [|split].
  - intros chat [_ Hne]%elem_of_filter.
    apply negb_true_iff, String.eqb_neq in Hne. done.
  - intros chat Hne. rewrite elem_of_filter.
    apply String.eqb_neq in Hne. rewrite Hne. cbn. tauto.
  - intros other Hne. by apply lookup_delete_ne.
Qed.

Lemma delete_success_removes_chat_from_cache_demo :
  exists l',
    let w' := fst (deleteChatMutation demoImports alice "c1" demoWorld) in
    chatById (queryCache w') !! "c1" = None
    /\ chatList (queryCache w') = Some l'
    /\ l' = [chat2]
    /\ (forall chat, chat ∈ l' -> id chat <> "c1")
    /\ (forall chat, id chat <> "c1" -> chat ∈ l' <-> chat ∈ [chat2; chat1])
    /\ (forall other, other <> "c1" ->
          chatById (queryCache w') !! other = chatById demoCache !! other).
Proof.
  apply (delete_success_removes_chat_from_cache demoImports alice "c1" demoWorld
           (fst (deleteChatMutation demoImports alice "c1" demoWorld)) "c1").
  reflexivity.
Defined.

(** C8: when the update-chat mutation succeeds with the chat [c], the
    cache entry of [id c] is [c], the entries of the other ids are the
    ones they were, and the list cache has the length it had with, at
    every position, [c] where the old element had the id of [c] and the
    old element where it had another id.  (Without list data the list
    cache becomes [[c]].) *)
Theorem update_success_replaces_chat_in_cache (imports : Imports) (ctx : Context)
    (vars : string * ChatPatch) (w w' : World) (c : TypeChat) :
  updateChatMutation imports ctx vars w = (w', Returned c) ->
  chatById (queryCache w') !! id c = Some c
  /\ (forall other, other <> id c ->
        chatById (queryCache w') !! other = chatById (queryCache w) !! other)
  /\ match chatList (queryCache w) with
     | Some l =>
         exists l',
           chatList (queryCache w') = Some l'
           /\ length l' = length l
           /\ forall i chat, l !! i = Some chat ->
                (id chat = id c -> l' !! i = Some c)
                /\ (id chat <> id c -> l' !! i = Some chat)
     | None => chatList (queryCache w') = Some [c]
     end.
Proof.
  intros Hq%updateChatMutation_success. rewrite Hq.
  unfold updateChatInCache, updateChatListCache. cbn [chatById chatList].
  split; [apply lookup_insert_eq|].
  split; [intros other Hne; by apply lookup_insert_ne|].
  destruct (chatList (queryCache w)) as [l|]; [|done].
  eexists. split; [reflexivity|]. split; [apply length_map|].
  intros i chat Hi. rewrite lookup_map, Hi. cbn. split.
  - intros ->%String.eqb_eq. done.
  - intros ->%String.eqb_neq. done.
Qed.

Lemma update_success_replaces_chat_in_cache_demo :
  let renamed := applyPatch (rename "Renamed") chat1 in
  let w' := fst (updateChatMutation demoImports alice ("c1", rename "Renamed") demoWorld) in
  chatById (queryCache w') !! "c1" = Some renamed
  /\ (forall other, other <> "c1" ->
        chatById (queryCache w') !! other = chatById demoCache !! other)
  /\ exists l',
       chatList (queryCache w') = Some l'
       /\ length l' = 2
       /\ forall i chat, [chat2; chat1] !! i = Some chat ->
            (id chat = "c1" -> l' !! i = Some renamed)
            /\ (id chat <> "c1" -> l' !! i = Some chat).
Proof.
  apply (update_success_replaces_chat_in_cache demoImports alice
           ("c1", rename "Renamed") demoWorld
           (fst (updateChatMutation demoImports alice ("c1", rename "Renamed") demoWorld))
           (applyPatch (rename "Renamed") chat1)).
  reflexivity.
Defined.

(** C9: for a signed-in caller and a chat id that passes validation,
    if the store reports no error the delete-chat mutation resolves
    with the id and removes the chat from the cache, whichever rows the
    id-and-owner filter selects; when it selects none the store is left
    as it was and the outcome is the same: the mutation never raises
    CHAT_NOT_FOUND. *)
Theorem delete_resolves_without_matching_row (imports : Imports) (ctx : Context)
    (w : World) (chatId : string) :
  truthy_opt (userId ctx) = true -> supabase ctx = true ->
  validateChatId imports chatId = true ->
  fault (store w) = None ->
  exists w',
    deleteChatMutation imports ctx chatId w = (w', Returned chatId)
    /\ queryCache w' = removeChatFromCache chatId (queryCache w)
    /\ chats (store w')
       = List.filter (fun c => negb (ownedBy chatId (userId ctx) c)) (chats (store w))
    /\ (Forall (fun c => ownedBy chatId (userId ctx) c = false) (chats (store w)) ->
        store w' = store w).
Proof.
  intros Hu Hs Hvalid Hfault.
  assert (Hfn : deleteChat_mutationFn imports ctx chatId w
            = ({| store := fst (chats_delete chatId (userId ctx) (store w));
                  queryCache := queryCache w;
                  pushed := pushed w; created := created w |},
               Returned chatId)).
  { unfold deleteChat_mutationFn. unfold bind at 1.
    rewrite validateUserAuth_ok by done.
    unfold throwIf, bind, request, ret, chats_delete.
    rewrite Hvalid. cbn [negb]. cbv beta iota. rewrite Hfault. reflexivity. }
  unfold deleteChatMutation, useMutation, tryCatch. unfold bind at 1.
  rewrite Hfn. unfold chats_delete. rewrite Hfault.
  eexists. split; [reflexivity|]. cbn. split; [done|]. split; [done|].
  intros Hnone. rewrite filter_all.
  - destruct (store w); cbn in *. by subst.
  - eapply Forall_impl; [exact Hnone|]. cbn. by intros ? ->.
Qed.

Lemma delete_resolves_without_matching_row_demo :
  exists w',
    deleteChatMutation demoImports alice "c3" demoWorld = (w', Returned "c3")
    /\ queryCache w' = removeChatFromCache "c3" demoCache
    /\ chats (store w') = [chat1; chat2; chat3]
    /\ (Forall (fun c => ownedBy "c3" (Some "alice") c = false) [chat1; chat2; chat3] ->
        store w' = demoStore).
Proof.
  apply (delete_resolves_without_matching_row demoImports alice demoWorld "c3");
    reflexivity.
Defined.

End ChatsFacts.

(** * Further properties of the conversation client *)

Module GeminiExtra.

Import Gemini GeminiFacts.
Local Open Scope eff_scope.

Section Conversation.

Variable env : Env.

(** The [try] block on a history that is not empty, with the final send
    spelled out. *)
Lemma tryBlock_snoc_final (prior : list ChatMessage) (m : ChatMessage)
    (fileContent : option string) (imageData : option ImageData) (s : Session) :
  isGeminiConfigured env = true ->
  tryBlock env (prior ++ [m]) fileContent imageData s
  = match play env (systemTurns env (prior ++ [m]) fileContent ++ replayTurns prior) s with
    | (s1, Returned _) =>
        (s1 ++ [finalTurn m imageData],
         answer env (map parts s1) (finalParts m imageData))
    | (s1, Threw e) => (s1, Threw e)
    end.
Proof.
  intros Hkey. rewrite tryBlock_snoc by done. unfold bind.
  destruct (play env _ s) as [s1 [[]|e]]; [|reflexivity].
  apply sendLast_snoc.
Qed.

Lemma systemTurns_length (messages : list ChatMessage) (fileContent : option string) :
  length (systemTurns env messages fileContent)
  <= if truthy_opt fileContent then 1 else 0.
Proof.
  unfold systemTurns, truthy_opt. destruct fileContent as [fc|]; [|done].
  destruct (truthy fc); cbn [andb]; [|done].
  destruct (truthy _); cbn; lia.
Qed.

Lemma plan_length (prior : list ChatMessage) (m : ChatMessage)
    (fileContent : option string) (imageData : option ImageData) :
  length (plan env prior m fileContent imageData)
  = length (systemTurns env (prior ++ [m]) fileContent) + length (prior ++ [m]).
Proof.
  unfold plan, replayTurns. rewrite !length_app, length_imap. reflexivity.
Qed.

(** With the key configured, a history that is not empty always gets the
    first call of its plan issued. *)
Lemma invoke_first_call (prior : list ChatMessage) (m : ChatMessage)
    (fileContent : option string) (imageData : option ImageData)
    (c : Call) (rest : list Call) :
  isGeminiConfigured env = true ->
  plan env prior m fileContent imageData = c :: rest ->
  head (fst (invoke env (prior ++ [m]) fileContent imageData)) = Some c.
Proof.
  intros Hkey Hplan. rewrite invoke_tryBlock, tryBlock_snoc_final by done.
  unfold plan in Hplan. rewrite app_assoc in Hplan.
  destruct (systemTurns env (prior ++ [m]) fileContent ++ replayTurns prior)
    as [|c0 P] eqn:HP.
  - injection Hplan as <- _. cbn.
    by destruct (answer env [] (finalParts m imageData)).
  - injection Hplan as -> _. rewrite play_cons.
    cbn [createChatSession map app].
    destruct (answer env [] (parts c)).
    + pose proof (play_outcome env P [c]) as Hout.
      destruct (play env P [c]) as [s1 [[]|e]].
      * subst s1. by destruct (answer env _ (finalParts m imageData)).
      * by destruct Hout as (issued & -> & _).
    + reflexivity.
Qed.

Lemma replayTurns_contents (prior prior' : list ChatMessage) :
  map content prior = map content prior' -> replayTurns prior = replayTurns prior'.
Proof.
  unfold replayTurns.
  assert (H : forall (k : nat) l l',
            map content l = map content l' ->
            imap (fun i m => replayTurn (k + i) m) l
            = imap (fun i m => replayTurn (k + i) m) l').
  { intros k l. revert k. induction l as [|x l IH]; intros k [|x' l'] Heq;
      try discriminate; [done|].
    injection Heq as Hx Hl. cbn [imap].
    f_equal; [unfold replayTurn; by rewrite Hx|].
    rewrite (imap_ext _ (fun i m => replayTurn (S k + i) m) l)
      by (intros; cbn; f_equal; lia).
    rewrite (imap_ext (_ ∘ S) (fun i m => replayTurn (S k + i) m) l')
      by (intros; cbn; f_equal; lia).
    by apply IH. }
  intros Heq. exact (H 0 prior prior' Heq).
Qed.

Lemma lastContent_snoc (prior prior' : list ChatMessage) (m m' : ChatMessage) :
  map content (prior ++ [m]) = map content (prior' ++ [m']) ->
  map content prior = map content prior' /\ content m = content m'.
Proof.
  rewrite !map_app. cbn [map]. intros H. apply app_inj_tail in H as [? ?]. done.
Qed.

Lemma systemTurns_contents (prior prior' : list ChatMessage) (m m' : ChatMessage)
    (fileContent : option string) :
  content m = content m' ->
  systemTurns env (prior ++ [m]) fileContent
  = systemTurns env (prior' ++ [m']) fileContent.
Proof.
  intros Hm. unfold systemTurns, systemPromptFor.
  rewrite !lastMessage_snoc, Hm. reflexivity.
Qed.

Lemma systemTurns_text_only (messages : list ChatMessage) (fileContent : option string) :
  Forall (fun c => carriesImage c = false) (systemTurns env messages fileContent).
Proof.
  unfold systemTurns. destruct fileContent as [fc|]; [|constructor].
  destruct (truthy fc && truthy _); repeat constructor.
Qed.

Lemma replayTurns_text_only (prior : list ChatMessage) :
  Forall (fun c => carriesImage c = false /\ site c <> SystemTurn) (replayTurns prior).
Proof.
  apply Forall_forall. intros c (i & m & _ & ->)%replayTurns_spec. done.
Qed.

End Conversation.

(** X1: the first call that fails ends the conversation.  With the key
    configured, if the model answers the calls of the plan up to some
    call and fails on that one (the send rejects or the reply has no
    readable text), the calls issued are exactly those up to and
    including the failing one, the later turns are never sent, and the
    reply is the apology followed by the message of that failure (by
    its string, if it is no [Error]; if it has none, the exception of
    the conversion leaves the function instead). *)
Theorem first_failure_ends_conversation (env : Env) (prior : list ChatMessage)
    (m : ChatMessage) (fileContent : option string) (imageData : option ImageData)
    (sent : list Call) (c : Call) (rest : list Call) (e : Thrown) :
  isGeminiConfigured env = true ->
  plan env prior m fileContent imageData = sent ++ c :: rest ->
  answered env [] (map parts sent) = true ->
  answer env (map parts sent) (parts c) = Threw e ->
  invoke env (prior ++ [m]) fileContent imageData
  = (sent ++ [c],
     match e with
     | ErrorObject message => Returned (apology +:+ message)
     | OtherValue shown => Returned (apology +:+ shown)
     | Unprintable raised => Threw raised
     end).
Proof.
  intros Hkey Hplan Hsent Hfail.
  rewrite invoke_tryBlock, tryBlock_snoc_final by done.
  unfold plan in Hplan. rewrite app_assoc in Hplan.
  destruct rest as [|x rest _] using rev_ind.
  - apply app_inj_tail in Hplan as [-> <-].
    rewrite play_answered by done. cbn [createChatSession app finalTurn parts] in *.
    by rewrite Hfail.
  - rewrite app_comm_cons, app_assoc in Hplan.
    apply app_inj_tail in Hplan as [-> _].
    rewrite play_app. unfold bind. rewrite play_answered by done.
    cbn [createChatSession app]. rewrite play_cons, Hfail. reflexivity.
Qed.

Lemma first_failure_ends_conversation_flaky :
  invoke flakyEnv historyABC None None
  = ([ {| site := ReplayTurn 0; parts := [Text "A"] |};
       {| site := ReplayTurn 1; parts := [Text "B"] |} ],
     Returned (apology +:+ "503 Service Unavailable")).
Proof.
  apply (first_failure_ends_conversation flakyEnv
    [ {| role := user; content := "A" |}; {| role := model; content := "B" |} ]
    {| role := user; content := "C" |} None None
    [ {| site := ReplayTurn 0; parts := [Text "A"] |} ]
    {| site := ReplayTurn 1; parts := [Text "B"] |}
    [ {| site := FinalTurn; parts := [Text "C"] |} ]
    (ErrorObject "503 Service Unavailable")); reflexivity.
Defined.

(** X2: an invocation issues at most one call per message of the
    history, plus one when there is file content (the system turn). *)
Theorem calls_bounded_by_history (env : Env) (messages : list ChatMessage)
    (fileContent : option string) (imageData : option ImageData) :
  length (fst (invoke env messages fileContent imageData))
  <= length messages + (if truthy_opt fileContent then 1 else 0).
Proof.
  destruct messages as [|m prior _] using rev_ind.
  - destruct (tryBlock_nil env fileContent imageData) as (calls & e & Htry & Hpre & _).
    rewrite invoke_tryBlock, Htry. cbn [fst length].
    apply prefix_length in Hpre.
    pose proof (systemTurns_length env [] fileContent). lia.
  - pose proof (invoke_prefix env prior m fileContent imageData) as Hpre.
    apply prefix_length in Hpre. rewrite plan_length in Hpre.
    pose proof (systemTurns_length env (prior ++ [m]) fileContent). lia.
Qed.

(** X3: the role of a message never reaches the model.  Two histories
    with the same contents in the same order, whatever the roles, give
    the same calls and the same reply. *)
Theorem role_is_never_sent (env : Env) (messages messages' : list ChatMessage)
    (fileContent : option string) (imageData : option ImageData) :
  map content messages = map content messages' ->
  invoke env messages fileContent imageData
  = invoke env messages' fileContent imageData.
Proof.
  intros Heq. rewrite !invoke_tryBlock.
  destruct (isGeminiConfigured env) eqn:Hkey.
  2:{ by rewrite !tryBlock_unconfigured. }
  destruct messages as [|m prior _] using rev_ind.
  { destruct messages'; [done | discriminate]. }
  destruct messages' as [|m' prior' _] using rev_ind.
  { rewrite map_app in Heq. by destruct (map content prior). }
  apply lastContent_snoc in Heq as [Hprior Hm].
  rewrite !tryBlock_snoc_final by done.
  rewrite (systemTurns_contents env prior prior' m m') by done.
  rewrite (replayTurns_contents prior prior') by done.
  unfold finalTurn, finalParts. rewrite Hm. reflexivity.
Qed.

Lemma role_is_never_sent_ABC :
  invoke blockedEnv historyABC (Some "notes") (Some pixel)
  = invoke blockedEnv historyABC_users (Some "notes") (Some pixel).
Proof.
  apply (role_is_never_sent blockedEnv historyABC historyABC_users). reflexivity.
Defined.

(** X4: without an image payload no call carries inline data, whatever
    the file content says (also "IMAGE_FILE"). *)
Theorem no_image_no_inline_data (env : Env) (messages : list ChatMessage)
    (fileContent : option string) :
  Forall (fun c => carriesImage c = false)
    (fst (invoke env messages fileContent None)).
Proof.
  destruct messages as [|m prior _] using rev_ind.
  - destruct (tryBlock_nil env fileContent None) as (calls & e & Htry & [k Hk] & _).
    rewrite invoke_tryBlock, Htry. cbn [fst].
    pose proof (systemTurns_text_only env [] fileContent) as H.
    rewrite Hk in H. by apply Forall_app in H as [? _].
  - destruct (invoke_prefix env prior m fileContent None) as [k Hk].
    assert (H : Forall (fun c => carriesImage c = false)
                  (plan env prior m fileContent None)).
    { unfold plan. rewrite !Forall_app. split; [apply systemTurns_text_only|].
      split; [|by repeat constructor].
      eapply Forall_impl; [apply replayTurns_text_only|]. by intros ? [? _]. }
    rewrite Hk in H. by apply Forall_app in H as [? _].
Qed.

Lemma system_turn_index (env : Env) (messages : list ChatMessage)
    (fileContent : option string) (imageData : option ImageData)
    (i : nat) (c : Call) :
  fst (invoke env messages fileContent imageData) !! i = Some c ->
  site c = SystemTurn ->
  i = 0.
Proof.
  intros Hi Hsite.
  destruct messages as [|m prior _] using rev_ind.
  - destruct (tryBlock_nil env fileContent imageData) as (calls & e & Htry & Hpre & _).
    rewrite invoke_tryBlock, Htry in Hi. cbn [fst] in Hi.
    apply lookup_lt_Some in Hi. apply prefix_length in Hpre.
    pose proof (systemTurns_length env [] fileContent).
    destruct (truthy_opt fileContent); lia.
  - pose proof (invoke_prefix env prior m fileContent imageData) as Hpre.
    eapply prefix_lookup_Some in Hpre; [|exact Hi].
    unfold plan in Hpre.
    pose proof (systemTurns_length env (prior ++ [m]) fileContent) as Hlen.
    destruct (decide (i < length (systemTurns env (prior ++ [m]) fileContent)))
      as [Hlt|Hge]; [destruct (truthy_opt fileContent); lia|].
    rewrite lookup_app_r in Hpre by lia.
    apply list_elem_of_lookup_2, elem_of_app in Hpre as [Hc|Hc].
    + apply replayTurns_spec in Hc as (j & m' & _ & ->). discriminate.
    + apply list_elem_of_singleton in Hc as ->. discriminate.
Qed.

(** X5: the system turn is the first call or it is not sent at all: no
    later call of an invocation is a system turn, whatever the inputs
    and whatever the model does. *)
Theorem system_turn_only_first (env : Env) (messages : list ChatMessage)
    (fileContent : option string) (imageData : option ImageData) :
  Forall (fun c => site c <> SystemTurn)
    (tail (fst (invoke env messages fileContent imageData))).
Proof.
  apply Forall_lookup. intros i c Hi Hsite.
  rewrite lookup_tail in Hi.
  by apply system_turn_index in Hi.
Qed.

(** X6: which instruction is sent.  With the key configured, a history
    that is not empty and file content that is neither empty nor
    "IMAGE_FILE", the first call is the system turn; its text is the
    preamble followed by the YouTube prompt if the file content is
    "YOUTUBE_TRANSCRIPT" or the last message mentions "YouTube", and by
    the document prompt otherwise (provided that prompt is not empty).
    The call is issued whatever the model then does. *)
Theorem system_prompt_choice (env : Env) (prior : list ChatMessage) (m : ChatMessage)
    (fc : string) (imageData : option ImageData) :
  let prompt :=
    if String.eqb fc "YOUTUBE_TRANSCRIPT" || includes (content m) "YouTube"
    then createYoutubeSystemPrompt env fc
    else createRagSystemPrompt env fc in
  isGeminiConfigured env = true ->
  truthy fc = true ->
  fc <> "IMAGE_FILE" ->
  truthy prompt = true ->
  head (fst (invoke env (prior ++ [m]) (Some fc) imageData))
  = Some {| site := SystemTurn; parts := [Text (systemPromptPreamble +:+ prompt)] |}.
Proof.
  intros prompt Hkey Hfc Himg Hprompt.
  apply invoke_first_call with
    (rest := replayTurns prior ++ [finalTurn m imageData]); [done|].
  unfold plan, systemTurns, systemPromptFor.
  rewrite lastMessage_snoc, Hfc.
  apply String.eqb_neq in Himg. rewrite Himg. cbn [andb].
  subst prompt.
  destruct (String.eqb fc "YOUTUBE_TRANSCRIPT"); cbn [orb] in *.
  - by rewrite Hprompt.
  - destruct (includes (content m) "YouTube"); by rewrite Hprompt.
Qed.

Lemma system_prompt_choice_flaky :
  head (fst (invoke flakyEnv
               [ {| role := user; content := "What is this YouTube video about?" |} ]
               (Some "transcript text") None))
  = Some {| site := SystemTurn;
            parts := [Text (systemPromptPreamble +:+ "YT:transcript text")] |}.
Proof.
  apply (system_prompt_choice flakyEnv []
           {| role := user; content := "What is this YouTube video about?" |}
           "transcript text" None); try reflexivity.
  discriminate.
Defined.

End GeminiExtra.

(** * Further properties of the chat hook *)

Module ChatsExtra.

Import Chats ChatsFacts.
Local Open Scope eff_scope.

(** *** What a computation leaves alone *)

Section Frame.

Context {X : Type} (part : World -> X).

Lemma preserves_ret {A} (a : A) : preserves part (ret a).
Proof. by intros w. Qed.

Lemma preserves_throw {A} (e : Thrown) : preserves part (throw (A:=A) e).
Proof. by intros w. Qed.

Lemma preserves_bind {A B} (m : Hook A) (k : A -> Hook B) :
  preserves part m -> (forall a, preserves part (k a)) -> preserves part (bind m k).
Proof.
  intros Hm Hk w. unfold bind. specialize (Hm w).
  destruct (m w) as [w1 [a|e]]; cbn [fst] in *; [|done].
  by rewrite Hk.
Qed.

Lemma preserves_tryCatch {A} (m : Hook A) (h : Thrown -> Hook A) :
  preserves part m -> (forall e, preserves part (h e)) -> preserves part (tryCatch m h).
Proof.
  intros Hm Hh w. unfold tryCatch. specialize (Hm w).
  destruct (m w) as [w1 [a|e]]; cbn [fst] in *; [done|].
  by rewrite Hh.
Qed.

Lemma preserves_throwIf (b : bool) (e : Thrown) : preserves part (throwIf b e).
Proof. by destruct b. Qed.

Lemma preserves_pure {A} (c : Completion Thrown A) :
  preserves part (fun w => (w, c)).
Proof. by intros w. Qed.

Lemma preserves_validateUserAuth (ctx : Context) : preserves part (validateUserAuth ctx).
Proof.
  unfold validateUserAuth. apply preserves_bind; [|intros _]; apply preserves_throwIf.
Qed.

End Frame.

Lemma request_keeps {A X} (part : World -> X) (q : Store -> Store * Reply A) :
  (forall w st, part {| store := st; queryCache := queryCache w;
                        pushed := pushed w; created := created w |} = part w) ->
  preserves part (request q).
Proof.
  intros H w. unfold request. destruct (q (store w)) as [st r]. apply H.
Qed.

Lemma request_read_keeps {A X} (part : World -> X) (q : Store -> Reply A) :
  preserves part (request (fun st => (st, q st))).
Proof. intros w. by destruct w. Qed.

Lemma callCreateChat_keeps_cache (imports : Imports) (ctx : Context) (fileId : string) :
  preserves queryCache (callCreateChat imports ctx fileId).
Proof.
  intros w. unfold callCreateChat. by destruct (createChatWithGemini _ _ _ _).
Qed.

Lemma router_push_keeps {X} (part : World -> X) (path : string) :
  (forall w l, part {| store := store w; queryCache := queryCache w;
                       pushed := l; created := created w |} = part w) ->
  preserves part (router_push path).
Proof. intros H w. apply H. Qed.

(** [handleError] acts on the redirect log only. *)
Lemma handleError_keeps {X} (part : World -> X) (e : Thrown) (context : string) :
  (forall w l, part {| store := store w; queryCache := queryCache w;
                       pushed := l; created := created w |} = part w) ->
  preserves part (handleError e context).
Proof.
  intros H. unfold handleError.
  destruct (isChatError e); [apply preserves_ret|].
  destruct e as [| message |]; try apply preserves_ret.
  destruct (_ || _ || _).
  - apply preserves_bind; [by apply router_push_keeps | intros; apply preserves_ret].
  - destruct (_ || _); apply preserves_ret.
Qed.

Ltac frame :=
  repeat first
    [ apply preserves_ret | apply preserves_throw | apply preserves_throwIf
    | apply preserves_pure | apply preserves_validateUserAuth
    | apply request_read_keeps | apply callCreateChat_keeps_cache
    | apply request_keeps; done
    | apply handleError_keeps; done
    | apply preserves_bind; [|intros ?]
    | match goal with
      | |- preserves _ (match ?x with _ => _ end) => destruct x
      end ].

Section Mutations.

Variable imports : Imports.
Variable ctx : Context.
Variable chats_insert : ChatPatch -> Store -> Store * Reply TypeChat.

Lemma startChatWithFile_mutationFn_keeps_cache (fileId : string) :
  preserves queryCache (startChatWithFile_mutationFn imports ctx fileId).
Proof. unfold startChatWithFile_mutationFn. frame. Qed.

Lemma createChat_mutationFn_keeps_cache (chatData : ChatPatch) :
  preserves queryCache (createChat_mutationFn imports ctx chats_insert chatData).
Proof. unfold createChat_mutationFn. frame. Qed.

Lemma updateChat_mutationFn_keeps_cache (vars : string * ChatPatch) :
  preserves queryCache (updateChat_mutationFn imports ctx vars).
Proof. destruct vars. unfold updateChat_mutationFn. frame. Qed.

Lemma deleteChat_mutationFn_keeps_cache (chatId : string) :
  preserves queryCache (deleteChat_mutationFn imports ctx chatId).
Proof. unfold deleteChat_mutationFn. frame. Qed.

(** How a mutation of the hook ends: resolved, with the success callback
    run on the world its function left, or rejected with the error of
    its function, after [handleError]. *)
Lemma useMutation_outcome {V A} (mutationFn : V -> Hook A) (f : A -> QueryCache -> QueryCache)
    (context : string) (v : V) (w : World) :
  match mutationFn v w with
  | (w1, Returned a) =>
      useMutation mutationFn (fun a => setCache (f a))
        (fun e => let* _ := handleError e context in ret tt) v w
      = ({| store := store w1; queryCache := f a (queryCache w1);
            pushed := pushed w1; created := created w1 |}, Returned a)
  | (w1, Threw e) =>
      useMutation mutationFn (fun a => setCache (f a))
        (fun e => let* _ := handleError e context in ret tt) v w
      = (fst (handleError e context w1), Threw e)
  end.
Proof.
  unfold useMutation, tryCatch, bind, ret, throw.
  destruct (mutationFn v w) as [w1 [a|e]]; [reflexivity|].
  destruct (handleError e context w1) as [w2 [r|e']] eqn:Hh; [reflexivity|].
  exfalso. revert Hh. unfold handleError.
  destruct (isChatError e); [discriminate|].
  destruct e as [| message |]; try discriminate.
  destruct (_ || _ || _); [discriminate|].
  destruct (_ || _); discriminate.
Qed.

Lemma useMutation_rejected {V A} (mutationFn : V -> Hook A)
    (f : A -> QueryCache -> QueryCache) (context : string) (v : V) (w w1 : World)
    (e : Thrown) :
  mutationFn v w = (w1, Threw e) -> isChatError e = true ->
  useMutation mutationFn (fun a => setCache (f a))
    (fun e => let* _ := handleError e context in ret tt) v w
  = (w1, Threw e).
Proof.
  intros Hfn He. pose proof (useMutation_outcome mutationFn f context v w) as H.
  rewrite Hfn in H. rewrite H. unfold handleError. by rewrite He.
Qed.

(** What a mutation did to the cache, by its outcome. *)
Lemma mutateAsync_cache (mu : Mutation) (w : World) :
  match mutateAsync imports ctx chats_insert mu w with
  | (w', Returned r) => queryCache w' = cacheUpdate mu r (queryCache w)
  | (w', Threw _) => queryCache w' = queryCache w
  end.
Proof.
  destruct mu as [fileId|chatData|chatId chatData|chatId];
    unfold mutateAsync, startChatWithFileMutation, createChatMutation,
      updateChatMutation, deleteChatMutation; unfold bind at 1.
  - pose proof (useMutation_outcome (startChatWithFile_mutationFn imports ctx)
                  addChatToCache "startChatWithFile" fileId w) as H.
    pose proof (startChatWithFile_mutationFn_keeps_cache fileId w) as Hq.
    destruct (startChatWithFile_mutationFn imports ctx fileId w) as [w1 [c|e]];
      rewrite H; cbn [fst] in *.
    + cbn. by rewrite Hq.
    + by rewrite handleError_keeps.
  - pose proof (useMutation_outcome (createChat_mutationFn imports ctx chats_insert)
                  addChatToCache "createChat" chatData w) as H.
    pose proof (createChat_mutationFn_keeps_cache chatData w) as Hq.
    destruct (createChat_mutationFn imports ctx chats_insert chatData w) as [w1 [c|e]];
      rewrite H; cbn [fst] in *.
    + cbn. by rewrite Hq.
    + by rewrite handleError_keeps.
  - pose proof (useMutation_outcome (updateChat_mutationFn imports ctx)
                  updateChatInCache "updateChat" (chatId, chatData) w) as H.
    pose proof (updateChat_mutationFn_keeps_cache (chatId, chatData) w) as Hq.
    destruct (updateChat_mutationFn imports ctx (chatId, chatData) w) as [w1 [c|e]];
      rewrite H; cbn [fst] in *.
    + cbn. by rewrite Hq.
    + by rewrite handleError_keeps.
  - pose proof (useMutation_outcome (deleteChat_mutationFn imports ctx)
                  removeChatFromCache "deleteChat" chatId w) as H.
    pose proof (deleteChat_mutationFn_keeps_cache chatId w) as Hq.
    destruct (deleteChat_mutationFn imports ctx chatId w) as [w1 [c|e]];
      rewrite H; cbn [fst] in *.
    + cbn. by rewrite Hq.
    + by rewrite handleError_keeps.
Qed.

Lemma validateUserAuth_fails (w : World) :
  truthy_opt (userId ctx) && supabase ctx = false ->
  validateUserAuth ctx w
  = (w, Threw (if truthy_opt (userId ctx)
               then createChatError "Database connection not available" "NO_SUPABASE" 500
               else createChatError "User not authenticated" "NO_USER_ID" 401)).
Proof.
  unfold validateUserAuth, throwIf, bind.
  destruct (truthy_opt (userId ctx)); [|done].
  destruct (supabase ctx); [discriminate|done].
Qed.

End Mutations.

(** *** Errors *)

(** X7: [handleError] never throws and acts on nothing but the redirect
    log: store, cache and the log of server calls are as they were.  It
    sends the browser to "/login" exactly when the error is an [Error]
    that is no chat error and whose message mentions "JWT expired",
    "refresh_token_not_found" or "Authentication required"; a chat error
    with such a message does not redirect.  The error it returns is a
    chat error or the error it was given. *)
Theorem handleError_redirects_only_for_expired_sessions (e : Thrown) (context : string)
    (w : World) :
  exists r,
    handleError e context w
    = ({| store := store w; queryCache := queryCache w;
          pushed := pushed w ++ match e with
                                | OtherError message =>
                                    if mentionsAuth message then ["/login"] else []
                                | _ => []
                                end;
          created := created w |},
       Returned r)
    /\ (isChatError r = true \/ r = e).
Proof.
  unfold handleError, mentionsAuth. destruct w as [st q p cr]. cbn [store queryCache pushed created].
  destruct e as [msg kind status|message|]; cbn [isChatError].
  - eexists. rewrite app_nil_r. split; [reflexivity|]. by left.
  - destruct (_ || _ || _).
    + eexists. split; [reflexivity|]. by left.
    + rewrite app_nil_r. destruct (_ || _); eexists; (split; [reflexivity|]);
        [by left | by right].
  - eexists. rewrite app_nil_r. split; [reflexivity|]. by left.
Qed.

(** X8: classifying is stable.  The error [handleError] returns is
    returned unchanged when it is handled again, in any context, and
    handling it again never redirects. *)
Theorem handleError_is_idempotent (e r : Thrown) (context context' : string)
    (w w1 w2 : World) :
  handleError e context w = (w1, Returned r) ->
  handleError r context' w2 = (w2, Returned r).
Proof.
  unfold handleError, bind, router_push, modify, ret.
  destruct e as [msg kind status|message|]; cbn [isChatError].
  - by intros [= _ <-].
  - destruct (_ || _ || _) eqn:Hauth.
    + by intros [= _ <-].
    + destruct (includes message "Failed to fetch" || includes message "NetworkError")
        eqn:Hnet; intros [= _ <-]; [done|].
      cbn [isChatError]. by rewrite Hauth, Hnet.
  - by intros [= _ <-].
Qed.

Lemma handleError_is_idempotent_expired :
  handleError (createChatError "Authentication expired. Please log in again."
                 "AUTH_EXPIRED" 401) "deleteChat" demoWorld
  = (demoWorld,
     Returned (createChatError "Authentication expired. Please log in again."
                 "AUTH_EXPIRED" 401)).
Proof.
  apply (handleError_is_idempotent (OtherError "invalid JWT: JWT expired") _
           "fetchChats" "deleteChat" demoWorld
           (fst (handleError (OtherError "invalid JWT: JWT expired") "fetchChats" demoWorld))).
  reflexivity.
Defined.

(** X9: without a signed-in user, or without a database client, every
    mutation and the single-chat query fail at once with NO_USER_ID
    (checked first) or NO_SUPABASE; no request is made, nothing is
    cached, nobody is redirected: the world is as it was. *)
Theorem unauthenticated_calls_fail_before_any_request (imports : Imports) (ctx : Context)
    (chats_insert : ChatPatch -> Store -> Store * Reply TypeChat) (w : World) :
  truthy_opt (userId ctx) && supabase ctx = false ->
  let e := if truthy_opt (userId ctx)
           then createChatError "Database connection not available" "NO_SUPABASE" 500
           else createChatError "User not authenticated" "NO_USER_ID" 401 in
  (forall mu, mutateAsync imports ctx chats_insert mu w = (w, Threw e))
  /\ (forall chatId, singleChat_queryFn imports ctx chatId w = (w, Threw e)).
Proof.
  intros Hauth e.
  pose proof (validateUserAuth_fails ctx w Hauth) as Hv. fold e in Hv.
  assert (He : isChatError e = true) by (subst e; by destruct (truthy_opt _)).
  split.
  - intros [fileId|chatData|chatId chatData|chatId];
      unfold mutateAsync, startChatWithFileMutation, createChatMutation,
        updateChatMutation, deleteChatMutation; unfold bind at 1.
    + rewrite (useMutation_rejected _ _ _ _ w w e); [done| |done].
      unfold startChatWithFile_mutationFn. unfold bind at 1. by rewrite Hv.
    + rewrite (useMutation_rejected _ _ _ _ w w e); [done| |done].
      unfold createChat_mutationFn. unfold bind at 1. by rewrite Hv.
    + rewrite (useMutation_rejected _ _ _ _ w w e); [done| |done].
      unfold updateChat_mutationFn. unfold bind at 1. by rewrite Hv.
    + rewrite (useMutation_rejected _ _ _ _ w w e); [done| |done].
      unfold deleteChat_mutationFn. unfold bind at 1. by rewrite Hv.
  - intros chatId. unfold singleChat_queryFn. unfold bind at 1. by rewrite Hv.
Qed.

Lemma unauthenticated_calls_fail_before_any_request_nobody :
  (forall mu, mutateAsync demoImports nobody demoInsert mu demoWorld
              = (demoWorld, Threw (createChatError "User not authenticated" "NO_USER_ID" 401)))
  /\ (forall chatId, singleChat_queryFn demoImports nobody chatId demoWorld
                     = (demoWorld,
                        Threw (createChatError "User not authenticated" "NO_USER_ID" 401))).
Proof.
  apply (unauthenticated_calls_fail_before_any_request demoImports nobody demoInsert
           demoWorld).
  reflexivity.
Defined.

(** X10: a chat id that fails validation is refused before any request:
    update, delete and the single-chat query of a signed-in user fail
    with INVALID_CHAT_ID and leave the world as it was, and
    [handleDeleteChat] fails the same way without setting [deletingId]. *)
Theorem invalid_chat_id_fails_before_any_request (imports : Imports) (ctx : Context)
    (chats_insert : ChatPatch -> Store -> Store * Reply TypeChat) (w : World) (u : Ui)
    (chatId : string) (chatData : ChatPatch) :
  truthy_opt (userId ctx) = true -> supabase ctx = true ->
  validateChatId imports chatId = false ->
  mutateAsync imports ctx chats_insert (UpdateChat chatId chatData) w
    = (w, Threw (createChatError "Valid chat ID is required" "INVALID_CHAT_ID" 400))
  /\ mutateAsync imports ctx chats_insert (DeleteChat chatId) w
     = (w, Threw (createChatError "Valid chat ID is required" "INVALID_CHAT_ID" 400))
  /\ singleChat_queryFn imports ctx chatId w
     = (w, Threw (createChatError "Invalid chat ID provided" "INVALID_CHAT_ID" 400))
  /\ handleDeleteChat imports ctx chatId u
     = (u, Threw (createChatError "Valid chat ID is required" "INVALID_CHAT_ID" 400)).
Proof.
  intros Hu Hs Hbad.
  pose proof (validateUserAuth_ok ctx w Hu Hs) as Hv.
  repeat split.
  - unfold mutateAsync, updateChatMutation. unfold bind at 1.
    rewrite (useMutation_rejected _ _ _ _ w w
               (createChatError "Valid chat ID is required" "INVALID_CHAT_ID" 400));
      [done| |done].
    unfold updateChat_mutationFn. unfold bind at 1. rewrite Hv.
    unfold throwIf, bind. by rewrite Hbad.
  - unfold mutateAsync, deleteChatMutation. unfold bind at 1.
    rewrite (useMutation_rejected _ _ _ _ w w
               (createChatError "Valid chat ID is required" "INVALID_CHAT_ID" 400));
      [done| |done].
    unfold deleteChat_mutationFn. unfold bind at 1. rewrite Hv.
    unfold throwIf, bind. by rewrite Hbad.
  - unfold singleChat_queryFn. unfold bind at 1. rewrite Hv.
    unfold throwIf, bind. by rewrite Hbad.
  - unfold handleDeleteChat, bind. by rewrite Hbad.
Qed.

Lemma invalid_chat_id_fails_before_any_request_blank :
  mutateAsync demoImports alice demoInsert (UpdateChat "  " (rename "x")) demoWorld
    = (demoWorld, Threw (createChatError "Valid chat ID is required" "INVALID_CHAT_ID" 400))
  /\ mutateAsync demoImports alice demoInsert (DeleteChat "  ") demoWorld
     = (demoWorld, Threw (createChatError "Valid chat ID is required" "INVALID_CHAT_ID" 400))
  /\ singleChat_queryFn demoImports alice "  " demoWorld
     = (demoWorld, Threw (createChatError "Invalid chat ID provided" "INVALID_CHAT_ID" 400))
  /\ handleDeleteChat demoImports alice "  "
       {| world := demoWorld; deletingId := Some "c2" |}
     = ({| world := demoWorld; deletingId := Some "c2" |},
        Threw (createChatError "Valid chat ID is required" "INVALID_CHAT_ID" 400)).
Proof.
  apply (invalid_chat_id_fails_before_any_request demoImports alice demoInsert demoWorld
           {| world := demoWorld; deletingId := Some "c2" |} "  " (rename "x"));
    reflexivity.
Defined.

(** X11: a mutation that is rejected, for whatever reason, leaves the
    cache exactly as it was: entries and list are written on success
    only. *)
Theorem rejected_mutation_keeps_cache (imports : Imports) (ctx : Context)
    (chats_insert : ChatPatch -> Store -> Store * Reply TypeChat)
    (mu : Mutation) (w w' : World) (e : Thrown) :
  mutateAsync imports ctx chats_insert mu w = (w', Threw e) ->
  queryCache w' = queryCache w.
Proof.
  intros H. pose proof (mutateAsync_cache imports ctx chats_insert mu w) as Hc.
  by rewrite H in Hc.
Qed.

Lemma rejected_mutation_keeps_cache_offline :
  queryCache (fst (mutateAsync demoImports alice demoInsert (DeleteChat "c1") offlineWorld))
  = demoCache.
Proof.
  apply (rejected_mutation_keeps_cache demoImports alice demoInsert (DeleteChat "c1")
           offlineWorld _ (OtherError "delete chat: Failed to fetch")).
  reflexivity.
Defined.

(** *** Creating chats *)

(** X12: when either create mutation resolves with a chat, that chat is
    the new first element of the cached list, the elements that were
    there follow in their order, and the single-chat entries are as they
    were. *)
Theorem created_chat_is_prepended (imports : Imports) (ctx : Context)
    (chats_insert : ChatPatch -> Store -> Store * Reply TypeChat)
    (fileId : string) (chatData : ChatPatch) (w w' : World) (c : TypeChat) :
  startChatWithFileMutation imports ctx fileId w = (w', Returned c)
  \/ createChatMutation imports ctx chats_insert chatData w = (w', Returned c) ->
  chatList (queryCache w') = Some (c :: default [] (chatList (queryCache w)))
  /\ chatById (queryCache w') = chatById (queryCache w).
Proof.
  intros [H|H]; apply useMutation_success in H as (w1 & Hfn & Hcb);
    unfold setCache, modify in Hcb; injection Hcb as <-; cbn.
  - pose proof (startChatWithFile_mutationFn_keeps_cache imports ctx fileId w) as Hq.
    rewrite Hfn in Hq. cbn in Hq. by rewrite Hq.
  - pose proof (createChat_mutationFn_keeps_cache imports ctx chats_insert chatData w) as Hq.
    rewrite Hfn in Hq. cbn in Hq. by rewrite Hq.
Qed.

Lemma created_chat_is_prepended_demo :
  let c := {| id := "c-new"; user_id := "alice"; created_at := "2025-01-04";
              file_id := "f-alice"; title := "Plan" |} in
  let w' := fst (createChatMutation demoImports alice demoInsert
                   {| set_id := None; set_user_id := Some "bob"; set_created_at := None;
                      set_file_id := Some "f-alice"; set_title := Some "Plan" |}
                   demoWorld) in
  chatList (queryCache w') = Some [c; chat2; chat1]
  /\ chatById (queryCache w') = chatById demoCache.
Proof.
  apply (created_chat_is_prepended demoImports alice demoInsert "f-alice"
           {| set_id := None; set_user_id := Some "bob"; set_created_at := None;
              set_file_id := Some "f-alice"; set_title := Some "Plan" |}
           demoWorld).
  right. reflexivity.
Defined.

(** The file query, by what the table holds. *)
Lemma files_maybeSingle_data (fileId : string) (st : Store) (f : TypeFile.t) :
  data (files_maybeSingle fileId st) = Some f ->
  f ∈ files st /\ TypeFile.id f = fileId.
Proof.
  unfold files_maybeSingle. destruct (fault st); [discriminate|].
  destruct (List.filter _ (files st)) as [|f0 [|]] eqn:Hf; try discriminate.
  intros [= <-].
  assert (f0 ∈ List.filter (fun f => String.eqb (TypeFile.id f) fileId) (files st)) as Hin
    by (rewrite Hf; apply list_elem_of_here).
  apply elem_of_filter in Hin as [? ?%String.eqb_eq]. done.
Qed.

Lemma filter_no_key (rows : list TypeFile.t) (fileId : string) :
  (forall row, row ∈ rows -> TypeFile.id row <> fileId) ->
  List.filter (fun f => String.eqb (TypeFile.id f) fileId) rows = [].
Proof.
  induction rows as [|r rows IH]; intros H; [done|].
  cbn. rewrite (proj2 (String.eqb_neq _ _)) by (apply H, list_elem_of_here).
  apply IH. intros row Hrow. by apply H, list_elem_of_further.
Qed.

(** The start-chat function of a signed-in caller with an id that is not
    blank, once the file query has answered. *)
Lemma startChatWithFile_mutationFn_checked (imports : Imports) (ctx : Context)
    (fileId : string) (w : World) :
  truthy_opt (userId ctx) = true -> supabase ctx = true ->
  truthy (trim fileId) = true ->
  startChatWithFile_mutationFn imports ctx fileId w
  = match error (files_maybeSingle fileId (store w)) with
    | Some e => (w, Threw (getErrorFromSupabaseError imports e "verify file"))
    | None =>
        match data (files_maybeSingle fileId (store w)) with
        | None => (w, Threw (createChatError "File not found" "FILE_NOT_FOUND" 404))
        | Some fileCheck =>
            if bool_decide (Some (TypeFile.user_id fileCheck) = userId ctx)
            then
              match createChatWithGemini imports fileId (userId ctx) (store w) with
              | (st, outcome) =>
                  let w1 := {| store := st; queryCache := queryCache w;
                               pushed := pushed w;
                               created := created w ++ [(fileId, userId ctx)] |} in
                  match outcome with
                  | Returned (Some c) =>
                      if truthy (id c) then (w1, Returned c)
                      else (w1, Threw (createChatError
                                         "Failed to create chat - invalid response"
                                         "INVALID_CHAT_RESPONSE" 500))
                  | Returned None =>
                      (w1, Threw (createChatError
                                    "Failed to create chat - invalid response"
                                    "INVALID_CHAT_RESPONSE" 500))
                  | Threw e => (w1, Threw e)
                  end
              end
            else (w, Threw (createChatError "File access denied" "FILE_ACCESS_DENIED" 403))
        end
    end.
Proof.
  intros Hu Hs Hid. unfold startChatWithFile_mutationFn. unfold bind at 1.
  rewrite validateUserAuth_ok by done.
  unfold throwIf, bind, request, ret, throw, callCreateChat.
  rewrite Hid. cbn [negb]. cbv beta iota. destruct w as [st q p cr].
  cbv beta iota delta [store queryCache pushed created].
  destruct (error (files_maybeSingle fileId st)); [reflexivity|].
  destruct (data (files_maybeSingle fileId st)) as [fileCheck|]; [|reflexivity].
  destruct (bool_decide _); cbn [negb]; [|reflexivity].
  destruct (createChatWithGemini imports fileId (userId ctx) st) as [st' [[c|]|e]];
    try reflexivity.
  by destruct (truthy (id c)).
Qed.

(** X13: a signed-in caller starting a chat with a file of their own
    gets the chat the server action made: the action is called once with
    the file id and the caller's id, its effect on the store is kept,
    and the chat is put first in the cached list. *)
Theorem own_file_starts_chat (imports : Imports) (ctx : Context) (w : World)
    (fileId u : string) (row : TypeFile.t) (st' : Store) (c : TypeChat) :
  userId ctx = Some u -> truthy u = true -> supabase ctx = true ->
  truthy (trim fileId) = true ->
  fault (store w) = None ->
  NoDup (TypeFile.id <$> files (store w)) ->
  row ∈ files (store w) -> TypeFile.id row = fileId -> TypeFile.user_id row = u ->
  createChatWithGemini imports fileId (Some u) (store w) = (st', Returned (Some c)) ->
  truthy (id c) = true ->
  startChatWithFileMutation imports ctx fileId w
  = ({| store := st'; queryCache := addChatToCache c (queryCache w);
        pushed := pushed w; created := created w ++ [(fileId, Some u)] |},
     Returned c).
Proof.
  intros Hu Htru Hs Hid Hfault Hkey Hrow <- Hown Hact Hc.
  pose proof (useMutation_outcome (startChatWithFile_mutationFn imports ctx)
                addChatToCache "startChatWithFile" (TypeFile.id row) w) as H.
  rewrite startChatWithFile_mutationFn_checked in H by (rewrite ?Hu; done).
  unfold files_maybeSingle in H.
  rewrite Hfault, filter_primary_key in H by done. cbn [error data] in H.
  rewrite Hu, Hown, bool_decide_eq_true_2, Hact, Hc in H by done.
  exact H.
Qed.

Lemma own_file_starts_chat_demo :
  let c := {| id := "chat-f-alice"; user_id := "alice"; created_at := "2025-01-03";
              file_id := "f-alice"; title := "New chat" |} in
  startChatWithFileMutation demoImports alice "f-alice" demoWorld
  = ({| store := {| files := files demoStore; chats := c :: chats demoStore;
                    fault := None |};
        queryCache := addChatToCache c demoCache;
        pushed := []; created := [("f-alice", Some "alice")] |},
     Returned c).
Proof.
  apply (own_file_starts_chat demoImports alice demoWorld "f-alice" "alice"
           {| TypeFile.id := "f-alice"; TypeFile.user_id := "alice" |});
    try reflexivity.
  - apply NoDup_cons_2; [|apply NoDup_singleton].
    intros H%list_elem_of_singleton. discriminate.
  - apply list_elem_of_here.
Defined.

(** X14: the server action is reached only through the ownership check.
    Whatever the inputs, a start-chat mutation either leaves the store
    and the log of server calls as they were, or it has called the
    action once, for this file and this caller, and then the [files]
    table holds a row with this id owned by the signed-in caller. *)
Theorem chat_is_created_only_for_own_file (imports : Imports) (ctx : Context)
    (fileId : string) (w : World) :
  let w' := fst (startChatWithFileMutation imports ctx fileId w) in
  (created w' = created w /\ store w' = store w)
  \/ (created w' = created w ++ [(fileId, userId ctx)]
      /\ truthy_opt (userId ctx) = true
      /\ exists row, row ∈ files (store w) /\ TypeFile.id row = fileId
                     /\ Some (TypeFile.user_id row) = userId ctx).
Proof.
  intros w'.
  assert (Hfn : let w1 := fst (startChatWithFile_mutationFn imports ctx fileId w) in
            (created w1 = created w /\ store w1 = store w)
            \/ (created w1 = created w ++ [(fileId, userId ctx)]
                /\ truthy_opt (userId ctx) = true
                /\ exists row, row ∈ files (store w) /\ TypeFile.id row = fileId
                               /\ Some (TypeFile.user_id row) = userId ctx)).
  { destruct (truthy_opt (userId ctx) && supabase ctx) eqn:Hauth.
    2:{ left.
        assert (startChatWithFile_mutationFn imports ctx fileId w
                = (w, Threw (if truthy_opt (userId ctx)
                             then createChatError "Database connection not available"
                                    "NO_SUPABASE" 500
                             else createChatError "User not authenticated"
                                    "NO_USER_ID" 401))) as ->; [|done].
        unfold startChatWithFile_mutationFn. unfold bind at 1.
        by rewrite validateUserAuth_fails. }
    apply andb_prop in Hauth as [Hu Hs].
    destruct (truthy (trim fileId)) eqn:Hid.
    2:{ left.
        assert (startChatWithFile_mutationFn imports ctx fileId w
                = (w, Threw (createChatError "Valid file ID is required"
                               "INVALID_FILE_ID" 400))) as ->; [|done].
        unfold startChatWithFile_mutationFn. unfold bind at 1.
        rewrite validateUserAuth_ok by done. unfold throwIf, bind. by rewrite Hid. }
    rewrite startChatWithFile_mutationFn_checked by done.
    destruct (error (files_maybeSingle fileId (store w))); [by left|].
    destruct (data (files_maybeSingle fileId (store w))) as [f|] eqn:Hdata; [|by left].
    destruct (bool_decide _) eqn:Hown; [|by left].
    apply bool_decide_eq_true_1 in Hown.
    apply files_maybeSingle_data in Hdata as [Hin Hf].
    right. destruct (createChatWithGemini _ _ _ _) as [st [[c|]|e]];
      [destruct (truthy (id c))| |]; cbn; eauto 10. }
  pose proof (useMutation_outcome (startChatWithFile_mutationFn imports ctx)
                addChatToCache "startChatWithFile" fileId w) as H.
  subst w'. unfold startChatWithFileMutation.
  destruct (startChatWithFile_mutationFn imports ctx fileId w) as [w1 [c|e]];
    rewrite H; cbn [fst] in *.
  - exact Hfn.
  - by rewrite !handleError_keeps.
Qed.

(** X15: a signed-in caller asking for a file id that no row of [files]
    carries gets FILE_NOT_FOUND; nothing is created, cached or
    redirected. *)
Theorem missing_file_is_not_found (imports : Imports) (ctx : Context) (w : World)
    (fileId : string) :
  truthy_opt (userId ctx) = true -> supabase ctx = true ->
  truthy (trim fileId) = true ->
  fault (store w) = None ->
  (forall row, row ∈ files (store w) -> TypeFile.id row <> fileId) ->
  startChatWithFileMutation imports ctx fileId w
  = (w, Threw (createChatError "File not found" "FILE_NOT_FOUND" 404)).
Proof.
  intros Hu Hs Hid Hfault Hnone.
  apply useMutation_rejected; [|done].
  rewrite startChatWithFile_mutationFn_checked by done.
  unfold files_maybeSingle. by rewrite Hfault, filter_no_key.
Qed.

Lemma missing_file_is_not_found_demo :
  startChatWithFileMutation demoImports alice "f-carol" demoWorld
  = (demoWorld, Threw (createChatError "File not found" "FILE_NOT_FOUND" 404)).
Proof.
  apply (missing_file_is_not_found demoImports alice demoWorld "f-carol");
    try reflexivity.
  intros row [->|[->|[]%elem_of_nil]%elem_of_cons]%elem_of_cons; discriminate.
Defined.

(** X16: when the server action answers with no chat, or with a chat
    whose id is empty, the mutation is rejected with
    INVALID_CHAT_RESPONSE and the cache is not written, but what the
    action did to the store stays: nothing is rolled back. *)
Theorem invalid_chat_response_is_not_rolled_back (imports : Imports) (ctx : Context)
    (w : World) (fileId u : string) (row : TypeFile.t) (st' : Store)
    (answer : option TypeChat) :
  userId ctx = Some u -> truthy u = true -> supabase ctx = true ->
  truthy (trim fileId) = true ->
  fault (store w) = None ->
  NoDup (TypeFile.id <$> files (store w)) ->
  row ∈ files (store w) -> TypeFile.id row = fileId -> TypeFile.user_id row = u ->
  createChatWithGemini imports fileId (Some u) (store w) = (st', Returned answer) ->
  truthy_opt (id <$> answer) = false ->
  startChatWithFileMutation imports ctx fileId w
  = ({| store := st'; queryCache := queryCache w;
        pushed := pushed w; created := created w ++ [(fileId, Some u)] |},
     Threw (createChatError "Failed to create chat - invalid response"
              "INVALID_CHAT_RESPONSE" 500)).
Proof.
  intros Hu Htru Hs Hid Hfault Hkey Hrow <- Hown Hact Hbad.
  apply useMutation_rejected; [|done].
  rewrite startChatWithFile_mutationFn_checked by (rewrite ?Hu; done).
  unfold files_maybeSingle.
  rewrite Hfault, filter_primary_key by done. cbn [error data].
  rewrite Hu, Hown, bool_decide_eq_true_2, Hact by done.
  destruct answer as [c|]; [|done]. cbn in Hbad. by rewrite Hbad.
Qed.

Lemma invalid_chat_response_is_not_rolled_back_demo :
  startChatWithFileMutation silentImports alice "f-alice" demoWorld
  = ({| store := {| files := files demoStore;
                    chats := {| id := "chat-f-alice"; user_id := "alice";
                                created_at := "2025-01-03"; file_id := "f-alice";
                                title := "New chat" |} :: chats demoStore;
                    fault := None |};
        queryCache := demoCache;
        pushed := []; created := [("f-alice", Some "alice")] |},
     Threw (createChatError "Failed to create chat - invalid response"
              "INVALID_CHAT_RESPONSE" 500)).
Proof.
  apply (invalid_chat_response_is_not_rolled_back silentImports alice demoWorld
           "f-alice" "alice" {| TypeFile.id := "f-alice"; TypeFile.user_id := "alice" |}
           _ None); try reflexivity.
  - apply NoDup_cons_2; [|apply NoDup_singleton].
    intros H%list_elem_of_singleton. discriminate.
  - apply list_elem_of_here.
Defined.

(** *** The store behind the mutations *)

Section StoreRequests.

Variable imports : Imports.
Variable ctx : Context.

(** The delete function of a signed-in caller with a valid id. *)
Lemma deleteChat_mutationFn_checked (chatId : string) (w : World) :
  truthy_opt (userId ctx) = true -> supabase ctx = true ->
  validateChatId imports chatId = true ->
  deleteChat_mutationFn imports ctx chatId w
  = match fault (store w) with
    | Some e => (w, Threw (getErrorFromSupabaseError imports e "delete chat"))
    | None =>
        ({| store := {| files := files (store w);
                        chats := List.filter
                                   (fun c => negb (ownedBy chatId (userId ctx) c))
                                   (chats (store w));
                        fault := None |};
            queryCache := queryCache w; pushed := pushed w; created := created w |},
         Returned chatId)
    end.
Proof.
  intros Hu Hs Hvalid. unfold deleteChat_mutationFn. unfold bind at 1.
  rewrite validateUserAuth_ok by done.
  unfold throwIf, bind, request, ret, throw, chats_delete.
  rewrite Hvalid. cbn [negb]. cbv beta iota.
  destruct w as [st q p cr]. cbv beta iota delta [store queryCache pushed created].
  by destruct (fault st).
Qed.

(** The update function of a signed-in caller with a valid id and
    accepted data. *)
Lemma updateChat_mutationFn_checked (chatId : string) (chatData : ChatPatch) (w : World) :
  truthy_opt (userId ctx) = true -> supabase ctx = true ->
  validateChatId imports chatId = true ->
  validateData imports chatData "chat data" = Returned tt ->
  updateChat_mutationFn imports ctx (chatId, chatData) w
  = match fault (store w) with
    | Some e => (w, Threw (getErrorFromSupabaseError imports e "update chat"))
    | None =>
        match List.filter (ownedBy chatId (userId ctx)) (chats (store w)) with
        | [c] =>
            ({| store := {| files := files (store w);
                            chats := map (fun c => if ownedBy chatId (userId ctx) c
                                                   then applyPatch chatData c else c)
                                       (chats (store w));
                            fault := None |};
                queryCache := queryCache w; pushed := pushed w; created := created w |},
             Returned (applyPatch chatData c))
        | _ => (w, Threw (getErrorFromSupabaseError imports PGRST116 "update chat"))
        end
    end.
Proof.
  intros Hu Hs Hvalid Hdata. unfold updateChat_mutationFn. unfold bind at 1.
  rewrite validateUserAuth_ok by done.
  unfold throwIf, bind, request, ret, throw, chats_update.
  rewrite Hvalid, Hdata. cbn [negb]. cbv beta iota.
  destruct w as [st q p cr]. cbv beta iota delta [store queryCache pushed created].
  destruct (fault st); [reflexivity|].
  by destruct (List.filter _ (chats st)) as [|c [|]].
Qed.

(** A mutation function that threw is followed by [handleError] only. *)
Lemma useMutation_threw {V A} (mutationFn : V -> Hook A)
    (f : A -> QueryCache -> QueryCache) (context : string) (v : V) (w w1 : World)
    (e : Thrown) :
  mutationFn v w = (w1, Threw e) ->
  exists w',
    useMutation mutationFn (fun a => setCache (f a))
      (fun e => let* _ := handleError e context in ret tt) v w = (w', Threw e)
    /\ store w' = store w1 /\ queryCache w' = queryCache w1 /\ created w' = created w1.
Proof.
  intros Hfn. pose proof (useMutation_outcome mutationFn f context v w) as H.
  rewrite Hfn in H. eexists. split; [exact H|].
  by rewrite !handleError_keeps.
Qed.

End StoreRequests.

(** X17: while the store answers with an error, a signed-in caller's
    start-chat, update and delete requests (with valid input) are
    rejected with that error as [getErrorFromSupabaseError] translates
    it, under the labels "verify file", "update chat" and "delete chat";
    store, cache and the log of server calls stay as they were. *)
Theorem store_error_rejects_and_changes_nothing (imports : Imports) (ctx : Context)
    (w : World) (e0 : PostgrestError) (fileId chatId : string) (chatData : ChatPatch) :
  fault (store w) = Some e0 ->
  truthy_opt (userId ctx) = true -> supabase ctx = true ->
  (truthy (trim fileId) = true ->
   exists w',
     startChatWithFileMutation imports ctx fileId w
       = (w', Threw (getErrorFromSupabaseError imports e0 "verify file"))
     /\ store w' = store w /\ queryCache w' = queryCache w /\ created w' = created w)
  /\ (validateChatId imports chatId = true ->
      validateData imports chatData "chat data" = Returned tt ->
      exists w',
        updateChatMutation imports ctx (chatId, chatData) w
          = (w', Threw (getErrorFromSupabaseError imports e0 "update chat"))
        /\ store w' = store w /\ queryCache w' = queryCache w /\ created w' = created w)
  /\ (validateChatId imports chatId = true ->
      exists w',
        deleteChatMutation imports ctx chatId w
          = (w', Threw (getErrorFromSupabaseError imports e0 "delete chat"))
        /\ store w' = store w /\ queryCache w' = queryCache w /\ created w' = created w).
Proof.
  intros Hfault Hu Hs. repeat split.
  - intros Hid. apply useMutation_threw.
    rewrite startChatWithFile_mutationFn_checked by done.
    unfold files_maybeSingle. by rewrite Hfault.
  - intros Hvalid Hdata. apply useMutation_threw.
    rewrite updateChat_mutationFn_checked by done. by rewrite Hfault.
  - intros Hvalid. apply useMutation_threw.
    rewrite deleteChat_mutationFn_checked by done. by rewrite Hfault.
Qed.

Lemma store_error_rejects_and_changes_nothing_offline :
  (exists w',
     startChatWithFileMutation demoImports alice "f-alice" offlineWorld
       = (w', Threw (OtherError "verify file: Failed to fetch"))
     /\ store w' = offline /\ queryCache w' = demoCache /\ created w' = [])
  /\ (exists w',
        updateChatMutation demoImports alice ("c1", rename "Renamed") offlineWorld
          = (w', Threw (OtherError "update chat: Failed to fetch"))
        /\ store w' = offline /\ queryCache w' = demoCache /\ created w' = [])
  /\ (exists w',
        deleteChatMutation demoImports alice "c1" offlineWorld
          = (w', Threw (OtherError "delete chat: Failed to fetch"))
        /\ store w' = offline /\ queryCache w' = demoCache /\ created w' = []).
Proof.
  destruct (store_error_rejects_and_changes_nothing demoImports alice offlineWorld
              (PgError "08006" "Failed to fetch") "f-alice" "c1" (rename "Renamed")
              eq_refl eq_refl eq_refl) as (H1 & H2 & H3).
  split; [exact (H1 eq_refl)|]. split; [exact (H2 eq_refl eq_refl) | exact (H3 eq_refl)].
Defined.

Lemma elem_of_map_fixed {A} (f : A -> A) (l : list A) (x : A) :
  x ∈ l -> f x = x -> x ∈ map f l.
Proof.
  intros Hx Hf. rewrite list_elem_of_In. rewrite <- Hf.
  apply List.in_map. by apply list_elem_of_In.
Qed.

Lemma not_ownedBy_foreign (chatId : string) (userId : option string) (c : TypeChat) :
  Some (user_id c) <> userId -> ownedBy chatId userId c = false.
Proof.
  intros Hne. unfold ownedBy. destruct userId as [u|]; [|by rewrite andb_false_r].
  rewrite (proj2 (String.eqb_neq (user_id c) u)) by congruence.
  by rewrite andb_false_r.
Qed.

(** X18: update and delete never touch a chat of another user.  Whatever
    the id, the data and the outcome, every row of [chats] whose owner is
    not the caller is still there, unchanged, afterwards; the [files]
    table is not written at all. *)
Theorem other_users_chats_are_never_touched (imports : Imports) (ctx : Context)
    (chatId : string) (chatData : ChatPatch) (w : World) (c : TypeChat) :
  c ∈ chats (store w) ->
  Some (user_id c) <> userId ctx ->
  let afterUpdate := store (fst (updateChatMutation imports ctx (chatId, chatData) w)) in
  let afterDelete := store (fst (deleteChatMutation imports ctx chatId w)) in
  c ∈ chats afterUpdate /\ files afterUpdate = files (store w)
  /\ c ∈ chats afterDelete /\ files afterDelete = files (store w).
Proof.
  intros Hc Hforeign afterUpdate afterDelete.
  apply (not_ownedBy_foreign chatId) in Hforeign.
  assert (Hupd : afterUpdate = store w
                 \/ afterUpdate = fst (chats_update chatData chatId (userId ctx) (store w))).
  { subst afterUpdate. unfold updateChatMutation.
    pose proof (useMutation_outcome (updateChat_mutationFn imports ctx)
                  updateChatInCache "updateChat" (chatId, chatData) w) as H.
    assert (Hfn : store (fst (updateChat_mutationFn imports ctx (chatId, chatData) w))
                  = store w
                  \/ store (fst (updateChat_mutationFn imports ctx (chatId, chatData) w))
                     = fst (chats_update chatData chatId (userId ctx) (store w))).
    { unfold updateChat_mutationFn, validateUserAuth, throwIf, bind, request, ret, throw.
      destruct (truthy_opt (userId ctx)); [|by left].
      destruct (supabase ctx); [|by left].
      destruct (validateChatId imports chatId); [|by left]. cbn [negb].
      destruct (validateData imports chatData "chat data"); [|by left].
      destruct (chats_update chatData chatId (userId ctx) (store w)) as [st r].
      right. destruct (error r); [done|]. by destruct (data r). }
    destruct (updateChat_mutationFn imports ctx (chatId, chatData) w) as [w1 [a|e]];
      rewrite H; cbn [fst] in *; [done|]. by rewrite handleError_keeps. }
  assert (Hdel : afterDelete = store w
                 \/ afterDelete = fst (chats_delete chatId (userId ctx) (store w))).
  { subst afterDelete. unfold deleteChatMutation.
    pose proof (useMutation_outcome (deleteChat_mutationFn imports ctx)
                  removeChatFromCache "deleteChat" chatId w) as H.
    assert (Hfn : store (fst (deleteChat_mutationFn imports ctx chatId w)) = store w
                  \/ store (fst (deleteChat_mutationFn imports ctx chatId w))
                     = fst (chats_delete chatId (userId ctx) (store w))).
    { unfold deleteChat_mutationFn, validateUserAuth, throwIf, bind, request, ret, throw.
      destruct (truthy_opt (userId ctx)); [|by left].
      destruct (supabase ctx); [|by left].
      destruct (validateChatId imports chatId); [|by left]. cbn [negb].
      destruct (chats_delete chatId (userId ctx) (store w)) as [st r].
      right. by destruct (error r). }
    destruct (deleteChat_mutationFn imports ctx chatId w) as [w1 [a|e]];
      rewrite H; cbn [fst] in *; [done|]. by rewrite handleError_keeps. }
  assert (Hu : c ∈ chats (fst (chats_update chatData chatId (userId ctx) (store w)))
               /\ files (fst (chats_update chatData chatId (userId ctx) (store w)))
                  = files (store w)).
  { unfold chats_update. destruct (fault (store w)); [done|].
    destruct (List.filter _ _) as [|c0 [|]]; try done. cbn. split; [|done].
    apply elem_of_map_fixed; [done|]. by rewrite Hforeign. }
  assert (Hd : c ∈ chats (fst (chats_delete chatId (userId ctx) (store w)))
               /\ files (fst (chats_delete chatId (userId ctx) (store w)))
                  = files (store w)).
  { unfold chats_delete. destruct (fault (store w)); [done|]. cbn. split; [|done].
    apply elem_of_filter. by rewrite Hforeign. }
  destruct Hupd as [->| ->], Hdel as [->| ->]; tauto.
Qed.

Lemma other_users_chats_are_never_touched_demo :
  let afterUpdate :=
    store (fst (updateChatMutation demoImports alice ("c3", rename "Mine") demoWorld)) in
  let afterDelete := store (fst (deleteChatMutation demoImports alice "c3" demoWorld)) in
  chat3 ∈ chats afterUpdate /\ files afterUpdate = files demoStore
  /\ chat3 ∈ chats afterDelete /\ files afterDelete = files demoStore.
Proof.
  apply (other_users_chats_are_never_touched demoImports alice "c3" (rename "Mine")
           demoWorld chat3).
  - do 2 apply list_elem_of_further. apply list_elem_of_here.
  - discriminate.
Defined.

(** *** The single-chat query *)

(** Under a primary key the id-and-owner filter selects the row [find]
    finds, and no other. *)
Lemma filter_ownedBy_find (chatId : string) (userId : option string) (l : list TypeChat) :
  NoDup (id <$> l) ->
  List.filter (ownedBy chatId userId) l
  = match List.find (ownedBy chatId userId) l with
    | Some c => [c]
    | None => []
    end.
Proof.
  induction l as [|x l IH]; intros Hnd; [done|].
  rewrite fmap_cons in Hnd. apply NoDup_cons in Hnd as [Hx Hnd].
  cbn [List.filter List.find]. destruct (ownedBy chatId userId x) eqn:Hown; [|by apply IH].
  f_equal. rewrite IH by done.
  destruct (List.find (ownedBy chatId userId) l) as [y|] eqn:Hy; [|done].
  apply List.find_some in Hy as [Hin Hy]. exfalso. apply Hx.
  unfold ownedBy in Hown, Hy.
  apply andb_prop in Hown as [->%String.eqb_eq _].
  apply andb_prop in Hy as [<-%String.eqb_eq _].
  apply list_elem_of_fmap_2. by apply list_elem_of_In.
Qed.

Lemma singleChat_queryFn_checked (imports : Imports) (ctx : Context) (chatId : string)
    (w : World) :
  truthy_opt (userId ctx) = true -> supabase ctx = true ->
  validateChatId imports chatId = true ->
  singleChat_queryFn imports ctx chatId w
  = (w, match error (chats_single chatId (userId ctx) (store w)) with
        | Some e =>
            if String.eqb (errorCode e) "PGRST116" then Returned None
            else Threw (getErrorFromSupabaseError imports e "fetch chat")
        | None => Returned (data (chats_single chatId (userId ctx) (store w)))
        end).
Proof.
  intros Hu Hs Hvalid. unfold singleChat_queryFn. unfold bind at 1.
  rewrite validateUserAuth_ok by done.
  unfold throwIf, bind, request, ret, throw.
  rewrite Hvalid. cbn [negb]. cbv beta iota.
  destruct w as [st q p cr]. cbv beta iota delta [store queryCache pushed created].
  destruct (error (chats_single chatId (userId ctx) st)) as [e|]; [|reflexivity].
  by destruct (String.eqb (errorCode e) "PGRST116").
Qed.

(** X19: what the single-chat query gives a signed-in caller with a
    valid id, the ids of [chats] being unique.  If the store answers, it
    is the caller's own chat with that id, and [null] if there is none
    (a chat of that id owned by someone else counts as none); the world
    is not changed.  If the store is down, its error is thrown as
    [getErrorFromSupabaseError] translates it, unless its code is
    PGRST116, which also gives [null]. *)
Theorem single_chat_query_returns_own_chat_or_null (imports : Imports) (ctx : Context)
    (chatId : string) (w : World) :
  truthy_opt (userId ctx) = true -> supabase ctx = true ->
  validateChatId imports chatId = true ->
  NoDup (id <$> chats (store w)) ->
  singleChat_queryFn imports ctx chatId w
  = (w, match fault (store w) with
        | None => Returned (List.find (ownedBy chatId (userId ctx)) (chats (store w)))
        | Some e =>
            if String.eqb (errorCode e) "PGRST116" then Returned None
            else Threw (getErrorFromSupabaseError imports e "fetch chat")
        end).
Proof.
  intros Hu Hs Hvalid Hkey. rewrite singleChat_queryFn_checked by done.
  unfold chats_single. destruct (fault (store w)); [done|].
  rewrite filter_ownedBy_find by done.
  by destruct (List.find _ _).
Qed.

Lemma single_chat_query_returns_own_chat_or_null_demo :
  singleChat_queryFn demoImports alice "c1" demoWorld = (demoWorld, Returned (Some chat1))
  /\ singleChat_queryFn demoImports alice "c3" demoWorld = (demoWorld, Returned None)
  /\ singleChat_queryFn demoImports alice "c1" offlineWorld
     = (offlineWorld, Threw (OtherError "fetch chat: Failed to fetch")).
Proof.
  assert (Hkey : NoDup (id <$> chats demoStore)).
  { apply NoDup_cons_2.
    { intros [H|[H|[]%elem_of_nil]%elem_of_cons]%elem_of_cons; discriminate. }
    apply NoDup_cons_2; [|apply NoDup_singleton].
    intros H%list_elem_of_singleton. discriminate. }
  split; [|split].
  - apply (single_chat_query_returns_own_chat_or_null demoImports alice "c1" demoWorld);
      done.
  - apply (single_chat_query_returns_own_chat_or_null demoImports alice "c3" demoWorld);
      done.
  - apply (single_chat_query_returns_own_chat_or_null demoImports alice "c1" offlineWorld);
      done.
Defined.

Section AfterMutation.

Variable imports : Imports.
Variable ctx : Context.

(** A delete that resolved was one of a signed-in caller with a valid id
    on a store that answered. *)
Lemma deleteChatMutation_resolved (chatId : string) (w w' : World) (r : string) :
  deleteChatMutation imports ctx chatId w = (w', Returned r) ->
  truthy_opt (userId ctx) = true /\ supabase ctx = true
  /\ validateChatId imports chatId = true
  /\ store w' = {| files := files (store w);
                   chats := List.filter (fun c => negb (ownedBy chatId (userId ctx) c))
                              (chats (store w));
                   fault := None |}.
Proof.
  intros (w1 & Hfn & Hcb)%useMutation_success.
  unfold setCache, modify in Hcb. injection Hcb as <-. cbn [store].
  destruct (truthy_opt (userId ctx)) eqn:Hu.
  2:{ unfold deleteChat_mutationFn in Hfn. unfold bind at 1 in Hfn.
      rewrite validateUserAuth_fails in Hfn by (by rewrite Hu). discriminate. }
  destruct (supabase ctx) eqn:Hs.
  2:{ unfold deleteChat_mutationFn in Hfn. unfold bind at 1 in Hfn.
      rewrite validateUserAuth_fails in Hfn by (by rewrite Hu, Hs). discriminate. }
  destruct (validateChatId imports chatId) eqn:Hvalid.
  2:{ unfold deleteChat_mutationFn in Hfn. unfold bind at 1 in Hfn.
      rewrite validateUserAuth_ok in Hfn by done.
      unfold throwIf, bind in Hfn. rewrite Hvalid in Hfn. discriminate. }
  rewrite deleteChat_mutationFn_checked in Hfn by done.
  destruct (fault (store w)); [discriminate|].
  injection Hfn as <- _. done.
Qed.

(** An update that resolved, likewise. *)
Lemma updateChatMutation_resolved (chatId : string) (chatData : ChatPatch)
    (w w' : World) (c : TypeChat) :
  updateChatMutation imports ctx (chatId, chatData) w = (w', Returned c) ->
  truthy_opt (userId ctx) = true /\ supabase ctx = true
  /\ validateChatId imports chatId = true
  /\ exists c0,
       List.filter (ownedBy chatId (userId ctx)) (chats (store w)) = [c0]
       /\ c = applyPatch chatData c0
       /\ store w' = {| files := files (store w);
                        chats := map (fun c => if ownedBy chatId (userId ctx) c
                                               then applyPatch chatData c else c)
                                   (chats (store w));
                        fault := None |}.
Proof.
  intros (w1 & Hfn & Hcb)%useMutation_success.
  unfold setCache, modify in Hcb. injection Hcb as <-. cbn [store].
  destruct (truthy_opt (userId ctx)) eqn:Hu.
  2:{ unfold updateChat_mutationFn in Hfn. unfold bind at 1 in Hfn.
      rewrite validateUserAuth_fails in Hfn by (by rewrite Hu). discriminate. }
  destruct (supabase ctx) eqn:Hs.
  2:{ unfold updateChat_mutationFn in Hfn. unfold bind at 1 in Hfn.
      rewrite validateUserAuth_fails in Hfn by (by rewrite Hu, Hs). discriminate. }
  destruct (validateChatId imports chatId) eqn:Hvalid.
  2:{ unfold updateChat_mutationFn in Hfn. unfold bind at 1 in Hfn.
      rewrite validateUserAuth_ok in Hfn by done.
      unfold throwIf, bind in Hfn. rewrite Hvalid in Hfn. discriminate. }
  destruct (validateData imports chatData "chat data") as [[]|e] eqn:Hdata.
  2:{ unfold updateChat_mutationFn in Hfn. unfold bind at 1 in Hfn.
      rewrite validateUserAuth_ok in Hfn by done.
      unfold throwIf, bind in Hfn. rewrite Hvalid, Hdata in Hfn. discriminate. }
  rewrite updateChat_mutationFn_checked in Hfn by done.
  destruct (fault (store w)); [discriminate|].
  destruct (List.filter _ _) as [|c0 [|]]; try discriminate.
  injection Hfn as <- <-. repeat split; eauto.
Qed.

End AfterMutation.

Lemma filter_filter_negb {A} (p : A -> bool) (l : list A) :
  List.filter p (List.filter (fun x => negb (p x)) l) = [].
Proof.
  induction l as [|x l IH]; [done|]. cbn.
  destruct (p x) eqn:Hp; cbn; [done|]. by rewrite Hp.
Qed.

Lemma filter_map_same {A} (p : A -> bool) (f : A -> A) (l : list A) :
  (forall x, p (f x) = p x) ->
  List.filter p (map f l) = map f (List.filter p l).
Proof.
  intros H. induction l as [|x l IH]; [done|]. cbn. rewrite H.
  destruct (p x); cbn; by rewrite IH.
Qed.

(** X20: after a delete that resolved, the single-chat query for the
    same id gives [null]: the chat is gone for its owner. *)
Theorem deleted_chat_is_not_found (imports : Imports) (ctx : Context) (chatId : string)
    (w w' : World) (r : string) :
  deleteChatMutation imports ctx chatId w = (w', Returned r) ->
  singleChat_queryFn imports ctx chatId w' = (w', Returned None).
Proof.
  intros (Hu & Hs & Hvalid & Hstore)%deleteChatMutation_resolved.
  rewrite singleChat_queryFn_checked by done.
  unfold chats_single. rewrite Hstore. cbn [fault chats].
  by rewrite filter_filter_negb.
Qed.

Lemma deleted_chat_is_not_found_demo :
  singleChat_queryFn demoImports alice "c1"
    (fst (deleteChatMutation demoImports alice "c1" demoWorld))
  = (fst (deleteChatMutation demoImports alice "c1" demoWorld), Returned None).
Proof.
  apply (deleted_chat_is_not_found demoImports alice "c1" demoWorld _ "c1").
  reflexivity.
Defined.

(** X21: after an update that resolved with the chat [c], with data that
    set neither the id nor the owner, the single-chat query for the same
    id gives [c]: what was written is what is read. *)
Theorem updated_chat_is_read_back (imports : Imports) (ctx : Context) (chatId : string)
    (chatData : ChatPatch) (w w' : World) (c : TypeChat) :
  updateChatMutation imports ctx (chatId, chatData) w = (w', Returned c) ->
  set_id chatData = None -> set_user_id chatData = None ->
  singleChat_queryFn imports ctx chatId w' = (w', Returned (Some c)).
Proof.
  intros (Hu & Hs & Hvalid & c0 & Hsel & -> & Hstore)%updateChatMutation_resolved Hid Huid.
  rewrite singleChat_queryFn_checked by done.
  unfold chats_single. rewrite Hstore. cbn [fault chats].
  assert (Hkeep : forall x, ownedBy chatId (userId ctx) (applyPatch chatData x)
                            = ownedBy chatId (userId ctx) x).
  { intros x. unfold ownedBy, applyPatch. cbn. by rewrite Hid, Huid. }
  rewrite filter_map_same.
  - rewrite Hsel. cbn.
    assert (ownedBy chatId (userId ctx) c0 = true) as ->; [|done].
    assert (c0 ∈ List.filter (ownedBy chatId (userId ctx)) (chats (store w))) as Hin
      by (rewrite Hsel; apply list_elem_of_here).
    by apply elem_of_filter in Hin as [_ ?].
  - intros x. destruct (ownedBy chatId (userId ctx) x) eqn:Hx; [|done].
    by rewrite Hkeep.
Qed.

Lemma updated_chat_is_read_back_demo :
  singleChat_queryFn demoImports alice "c1"
    (fst (updateChatMutation demoImports alice ("c1", rename "Renamed") demoWorld))
  = (fst (updateChatMutation demoImports alice ("c1", rename "Renamed") demoWorld),
     Returned (Some (applyPatch (rename "Renamed") chat1))).
Proof.
  apply (updated_chat_is_read_back demoImports alice "c1" (rename "Renamed") demoWorld);
    reflexivity.
Defined.

(** *** The cache *)

Lemma updateChatInCache_overwrites (c1 c2 : TypeChat) (q : QueryCache) :
  id c1 = id c2 ->
  updateChatInCache c2 (updateChatInCache c1 q) = updateChatInCache c2 q.
Proof.
  intros Hid. unfold updateChatInCache, updateChatListCache. cbn [chatList chatById].
  rewrite Hid, insert_insert_eq. f_equal. f_equal.
  destruct (chatList q) as [l|].
  - rewrite List.map_map. apply List.map_ext. intros x.
    destruct (String.eqb (id x) (id c2)) eqn:Hx; [|by rewrite Hx].
    by rewrite Hid, String.eqb_refl.
  - cbn. by rewrite Hid, String.eqb_refl.
Qed.

(** X22: the last write wins.  After two update mutations in a row that
    resolved with chats of the same id, the cache is what the second
    alone would have made of the cache before the first: entry and list
    element hold the second chat, nothing of the first is left. *)
Theorem second_update_wins (imports : Imports) (ctx : Context)
    (vars1 vars2 : string * ChatPatch) (w w1 w2 : World) (c1 c2 : TypeChat) :
  updateChatMutation imports ctx vars1 w = (w1, Returned c1) ->
  updateChatMutation imports ctx vars2 w1 = (w2, Returned c2) ->
  id c1 = id c2 ->
  queryCache w2 = updateChatInCache c2 (queryCache w).
Proof.
  intros H1%updateChatMutation_success H2%updateChatMutation_success Hid.
  rewrite H2, H1. by apply updateChatInCache_overwrites.
Qed.

Lemma second_update_wins_demo :
  let w1 := fst (updateChatMutation demoImports alice ("c1", rename "Draft") demoWorld) in
  let w2 := fst (updateChatMutation demoImports alice ("c1", rename "Final") w1) in
  queryCache w2 = updateChatInCache (applyPatch (rename "Final") chat1) demoCache.
Proof.
  apply (second_update_wins demoImports alice ("c1", rename "Draft")
           ("c1", rename "Final") demoWorld
           (fst (updateChatMutation demoImports alice ("c1", rename "Draft") demoWorld))
           (fst (updateChatMutation demoImports alice ("c1", rename "Final")
                   (fst (updateChatMutation demoImports alice ("c1", rename "Draft")
                           demoWorld))))
           (applyPatch (rename "Draft") chat1) (applyPatch (rename "Final") chat1));
    reflexivity.
Defined.

(** X23: finding a chat that was put in the cache.  The single-chat
    entry is read from the cache when [getChatById] is called, the list
    is the one of the render the callback belongs to ([listData]).  So
    after [updateChatInCache] the chat is found under its id (if the id
    passes validation) whatever list the render holds, also a stale one.
    [addChatToCache] writes the list only: a callback whose render still
    holds the old list answers exactly as before the add, and the added
    chat is found once the render holds the list after the add, if no
    single-chat entry of that id is there to be preferred to the list. *)
Theorem cached_chat_is_found (imports : Imports) (q : QueryCache) (c : TypeChat)
    (listData : option (list TypeChat)) :
  validateChatId imports (id c) = true ->
  getChatById imports (updateChatInCache c q) listData (id c) = Some c
  /\ (forall targetChatId,
        getChatById imports (addChatToCache c q) listData targetChatId
        = getChatById imports q listData targetChatId)
  /\ (chatById q !! id c = None ->
      getChatById imports (addChatToCache c q) (chatList (addChatToCache c q)) (id c)
        = Some c).
Proof.
  intros Hvalid. split; [|split].
  - unfold getChatById. rewrite Hvalid. cbn [negb].
    unfold updateChatInCache, updateChatListCache. cbn [chatById].
    by rewrite lookup_insert_eq.
  - reflexivity.
  - intros Hnone. unfold getChatById. rewrite Hvalid. cbn [negb].
    unfold addChatToCache, updateChatListCache. cbn [chatById chatList].
    rewrite Hnone. cbn. by rewrite String.eqb_refl.
Qed.

Lemma cached_chat_is_found_demo :
  let fresh := {| id := "c9"; user_id := "alice"; created_at := "2025-01-05";
                  file_id := "f-alice"; title := "Fresh" |} in
  getChatById demoImports (updateChatInCache fresh demoCache) (Some [chat2; chat1]) "c9"
    = Some fresh
  /\ (forall targetChatId,
        getChatById demoImports (addChatToCache fresh demoCache) (Some [chat2; chat1])
          targetChatId
        = getChatById demoImports demoCache (Some [chat2; chat1]) targetChatId)
  /\ getChatById demoImports (addChatToCache fresh demoCache)
       (chatList (addChatToCache fresh demoCache)) "c9" = Some fresh.
Proof.
  destruct (cached_chat_is_found demoImports demoCache
              {| id := "c9"; user_id := "alice"; created_at := "2025-01-05";
                 file_id := "f-alice"; title := "Fresh" |}
              (Some [chat2; chat1]) eq_refl) as (H1 & H2 & H3).
  split; [exact H1|]. split; [exact H2|]. apply H3. reflexivity.
Defined.

(** A chat added while the render holds the old list is not found by
    that render's callback; it is found with the list after the add. *)
Example added_chat_and_the_render_list :
  let fresh := {| id := "c9"; user_id := "alice"; created_at := "2025-01-05";
                  file_id := "f-alice"; title := "Fresh" |} in
  getChatById demoImports (addChatToCache fresh demoCache) (chatList demoCache) "c9" = None
  /\ getChatById demoImports (addChatToCache fresh demoCache)
       (chatList (addChatToCache fresh demoCache)) "c9" = Some fresh.
Proof. split; reflexivity. Qed.

Lemma find_filter_negb {A} (p : A -> bool) (l : list A) :
  List.find p (List.filter (fun x => negb (p x)) l) = None.
Proof.
  induction l as [|x l IH]; [done|]. cbn.
  destruct (p x) eqn:Hp; cbn; [done|]. by rewrite Hp.
Qed.

(** X24: looking for a chat that was taken out of the cache.  After
    [removeChatFromCache] the single-chat entry is gone at once, so
    [getChatById] answers from the list of its render alone, for every
    such list: with the list after the removal it finds nothing, while a
    callback whose render still holds the old list still finds the old
    element there. *)
Theorem removed_chat_is_not_in_cache (imports : Imports) (q : QueryCache)
    (chatId : string) (listData : option (list TypeChat)) :
  getChatById imports (removeChatFromCache chatId q) listData chatId
  = (if validateChatId imports chatId
     then match listData with
          | Some l => List.find (fun chat => String.eqb (id chat) chatId) l
          | None => None
          end
     else None)
  /\ getChatById imports (removeChatFromCache chatId q)
       (chatList (removeChatFromCache chatId q)) chatId = None.
Proof.
  unfold getChatById. destruct (validateChatId imports chatId); [|done]. cbn [negb].
  unfold removeChatFromCache, updateChatListCache. cbn [chatById chatList].
  rewrite lookup_delete_eq. split; [done|].
  destruct (chatList q) as [l|]; [|done].
  apply (find_filter_negb (fun chat => String.eqb (id chat) chatId)).
Qed.

(** The removed chat and the two lists. *)
Example removed_chat_and_the_render_list :
  getChatById demoImports (removeChatFromCache "c1" demoCache) (chatList demoCache) "c1"
    = Some chat1
  /\ getChatById demoImports (removeChatFromCache "c1" demoCache)
       (chatList (removeChatFromCache "c1" demoCache)) "c1" = None.
Proof. split; reflexivity. Qed.

(** X25: the cache stays well keyed.  If every single-chat entry is
    filed under the id of its chat, it is so again after any of the four
    mutations, resolved or rejected. *)
Theorem every_mutation_keeps_cache_well_keyed (imports : Imports) (ctx : Context)
    (chats_insert : ChatPatch -> Store -> Store * Reply TypeChat)
    (mu : Mutation) (w : World) :
  wellKeyed (queryCache w) ->
  wellKeyed (queryCache (fst (mutateAsync imports ctx chats_insert mu w))).
Proof.
  intros Hwk. pose proof (mutateAsync_cache imports ctx chats_insert mu w) as H.
  destruct (mutateAsync imports ctx chats_insert mu w) as [w' [r|e]]; cbn [fst];
    rewrite H; [|done].
  assert (Hadd : forall c, wellKeyed (addChatToCache c (queryCache w))) by (intros c; exact Hwk).
  destruct mu, r; cbn [cacheUpdate]; try done.
  - intros k c' Hk. unfold updateChatInCache, updateChatListCache in Hk.
    cbn [chatById] in Hk.
    apply lookup_insert_Some in Hk as [[<- <-]|[_ Hk]]; [done|]. by apply Hwk.
  - intros k c' Hk. unfold removeChatFromCache, updateChatListCache in Hk.
    cbn [chatById] in Hk.
    apply lookup_delete_Some in Hk as [_ Hk]. by apply Hwk.
Qed.

Lemma demoCache_wellKeyed : wellKeyed demoCache.
Proof.
  intros k c Hk. cbn [demoCache chatById] in Hk.
  apply lookup_insert_Some in Hk as [[<- <-]|[_ Hk]]; [done|].
  by apply lookup_singleton_Some in Hk as [<- <-].
Qed.

Lemma every_mutation_keeps_cache_well_keyed_demo :
  wellKeyed (queryCache (fst (mutateAsync demoImports alice demoInsert
                                (UpdateChat "c1" (rename "Renamed")) demoWorld))).
Proof.
  apply (every_mutation_keeps_cache_well_keyed demoImports alice demoInsert
           (UpdateChat "c1" (rename "Renamed")) demoWorld).
  exact demoCache_wellKeyed.
Defined.

(** X26: on a well-keyed cache [getChatById] answers with a chat of the
    id it was asked for, or with nothing, whatever list the render
    holds. *)
Theorem getChatById_returns_requested_id (imports : Imports) (q : QueryCache)
    (listData : option (list TypeChat)) (targetChatId : string) (c : TypeChat) :
  wellKeyed q ->
  getChatById imports q listData targetChatId = Some c ->
  id c = targetChatId.
Proof.
  intros Hwk. unfold getChatById.
  destruct (validateChatId imports targetChatId); [|discriminate]. cbn [negb].
  destruct (chatById q !! targetChatId) as [cached|] eqn:Hentry.
  - intros [= <-]. by apply Hwk.
  - destruct listData as [l|]; [|discriminate].
    intros [_ Hid%String.eqb_eq]%List.find_some. done.
Qed.

Lemma getChatById_returns_requested_id_demo : id chat2 = "c2".
Proof.
  apply (getChatById_returns_requested_id demoImports demoCache (Some [chat3]) "c2" chat2).
  - exact demoCache_wellKeyed.
  - reflexivity.
Defined.

(** *** The delete handler *)

(** X27: [handleDeleteChat] with a valid id runs the delete mutation and
    leaves [deletingId] cleared whether the mutation resolved or was
    rejected; a rejection still reaches the caller. *)
Theorem handleDeleteChat_always_clears_deletingId (imports : Imports) (ctx : Context)
    (chatId : string) (u : Ui) :
  validateChatId imports chatId = true ->
  let run := deleteChatMutation imports ctx chatId (world u) in
  handleDeleteChat imports ctx chatId u
  = ({| world := fst run; deletingId := None |},
     match snd run with
     | Returned _ => Returned tt
     | Threw e => Threw e
     end).
Proof.
  intros Hvalid run. unfold handleDeleteChat, bind. rewrite Hvalid. cbn [negb ret].
  unfold setDeletingId, modify, tryFinally, mutateAsync_deleteChat. cbn [world deletingId].
  subst run. by destruct (deleteChatMutation imports ctx chatId (world u)) as [w [r|e]].
Qed.

Lemma handleDeleteChat_always_clears_deletingId_offline :
  handleDeleteChat demoImports alice "c1" {| world := offlineWorld; deletingId := None |}
  = ({| world := offlineWorld; deletingId := None |},
     Threw (OtherError "delete chat: Failed to fetch")).
Proof.
  apply (handleDeleteChat_always_clears_deletingId demoImports alice "c1"
           {| world := offlineWorld; deletingId := None |}).
  reflexivity.
Defined.

(** *** The owner of a new chat *)

(** X28: the owner of a chat made by the create mutation is the caller,
    not the payload's choice.  A [user_id] put into the data changes
    nothing of what the mutation does (as far as [validateData] accepts
    both payloads alike): the row sent to the store carries the caller's
    id in its place. *)
Theorem payload_owner_is_overridden (imports : Imports) (ctx : Context)
    (chats_insert : ChatPatch -> Store -> Store * Reply TypeChat)
    (chatData : ChatPatch) (owner : option string) (w : World) :
  let forged :=
    {| set_id := set_id chatData; set_user_id := owner;
       set_created_at := set_created_at chatData;
       set_file_id := set_file_id chatData; set_title := set_title chatData |} in
  validateData imports forged "chat data" = validateData imports chatData "chat data" ->
  createChatMutation imports ctx chats_insert forged w
  = createChatMutation imports ctx chats_insert chatData w.
Proof.
  intros forged Hvalid.
  assert (Hfn : createChat_mutationFn imports ctx chats_insert forged w
                = createChat_mutationFn imports ctx chats_insert chatData w).
  { unfold createChat_mutationFn, bind. rewrite Hvalid. reflexivity. }
  unfold createChatMutation, useMutation, tryCatch. unfold bind at 1 3.
  by rewrite Hfn.
Qed.

Lemma payload_owner_is_overridden_demo :
  createChatMutation demoImports alice demoInsert
    {| set_id := None; set_user_id := Some "bob"; set_created_at := None;
       set_file_id := Some "f-alice"; set_title := Some "Plan" |} demoWorld
  = createChatMutation demoImports alice demoInsert
      {| set_id := None; set_user_id := None; set_created_at := None;
         set_file_id := Some "f-alice"; set_title := Some "Plan" |} demoWorld.
Proof.
  apply (payload_owner_is_overridden demoImports alice demoInsert
           {| set_id := None; set_user_id := None; set_created_at := None;
              set_file_id := Some "f-alice"; set_title := Some "Plan" |}
           (Some "bob") demoWorld).
  reflexivity.
Defined.

End ChatsExtra.
